(** * SpatialPathDB: the spatial statistics and density estimation engine

    A shallow embedding of
      spatial-engine/src/spatial_analysis/density_estimation.py
      spatial-engine/src/spatial_analysis/spatial_statistics.py

    Numbers.  The Python code computes with IEEE doubles.  Every finite
    double is a rational, so coordinates, radii, cell sizes and areas are
    values of [Q]; arithmetic is exact (no rounding), and the results that
    need a square root or pi live in [R].  Integer conversions
    ([int(np.ceil(..))], [.astype(int)]) are the exact ceiling and the
    truncation toward zero.  This reading serves the properties that hold
    of the formulas, up to rounding.

    Where the result is decided by a rounded value (the shape of the
    count grid and the bin of a point, the clustered flag of Ripley's K)
    the operation is embedded a second time in binary64, on the kernel's
    primitive floats: modules [Float64], [Density64] and [Stats64].

    Exceptions.  A Python call either returns a value or raises; the type
    [py] records which, so that "returns an error dictionary" and "raises"
    stay different outcomes. *)

From Stdlib Require Import ZArith QArith Qround Qminmax Qabs Reals Qreals Lia Lra List Finite.
From Stdlib Require Floats Uint63.
From stdpp Require Import gmap strings list fin_maps sorting.

Close Scope Q_scope.
Close Scope R_scope.
Open Scope Z_scope.

(** ** Python results *)

Module Py.

Inductive exn : Type :=
| ZeroDivisionError
| ValueError
| IndexError
| AttributeError
| OverflowError
| LinAlgError.

Inductive py (A : Type) : Type :=
| Return (a : A)
| Raise (e : exn).

Arguments Return {A} a.
Arguments Raise {A} e.

Definition bind {A B : Type} (m : py A) (k : A -> py B) : py B :=
  match m with
  | Return a => k a
  | Raise e => Raise e
  end.

Definition returns {A : Type} (m : py A) : Prop := exists a, m = Return a.

Definition raises {A : Type} (m : py A) : Prop := exists e, m = Raise e.

End Py.
Import Py.

Notation "'let*' x ':=' m 'in' k" := (Py.bind m (fun x => k))
  (at level 10, x name, m at level 100, k at level 200).

(** ** The NumPy operations the engine uses *)

Module Np.

Definition point : Type := (Q * Q)%type.

(** [a.min()] and [a.max()] of a one-dimensional array; a zero-size array
    has no minimum and NumPy raises ValueError. *)
Definition amin (xs : list Q) : py Q :=
  match xs with
  | [] => Raise ValueError
  | x :: rest => Return (fold_left Qmin rest x)
  end.

Definition amax (xs : list Q) : py Q :=
  match xs with
  | [] => Raise ValueError
  | x :: rest => Return (fold_left Qmax rest x)
  end.

(** [int(np.ceil(q))]. *)
Definition ceil_int (q : Q) : Z := Qceiling q.

(** [.astype(int)] on a float: truncation toward zero. *)
Definition astype_int (q : Q) : Z := Z.quot (Qnum q) (Z.pos (Qden q)).

(** [np.clip(a, lo, hi)] is [minimum(maximum(a, lo), hi)]; when [lo > hi]
    every entry becomes [hi]. *)
Definition clip (a lo hi : Z) : Z := Z.min (Z.max a lo) hi.

(** [np.zeros((rows, cols))]; a negative dimension raises ValueError. *)
Definition zeros (rows cols : Z) : py (list (list Z)) :=
  if (rows <? 0) || (cols <? 0) then Raise ValueError
  else Return (replicate (Z.to_nat rows) (replicate (Z.to_nat cols) 0)).

(** An index [i] into an axis of size [n]: negative indices count from the
    end, anything outside [-n, n) is an IndexError. *)
Definition norm_index (i : Z) (n : nat) : py nat :=
  if (0 <=? i) && (i <? Z.of_nat n) then Return (Z.to_nat i)
  else if (- Z.of_nat n <=? i) && (i <? 0) then Return (Z.to_nat (i + Z.of_nat n))
  else Raise IndexError.

(** One step of [np.add.at(a, (i0, i1), 1)]: [a[i0, i1] += 1].  The array
    [a] is indexed (axis 0, axis 1); axis 1 has the length of the rows. *)
Definition add_at1 (a : list (list Z)) (ix : Z * Z) : py (list (list Z)) :=
  let* i0 := norm_index (fst ix) (length a) in
  match a !! i0 with
  | None => Raise IndexError
  | Some row =>
      let* i1 := norm_index (snd ix) (length row) in
      match row !! i1 with
      | None => Raise IndexError
      | Some v => Return (<[i0 := <[i1 := v + 1]> row]> a)
      end
  end.

(** [np.add.at(a, (is0, is1), 1)] for the paired index arrays. *)
Fixpoint add_at (a : list (list Z)) (ixs : list (Z * Z)) : py (list (list Z)) :=
  match ixs with
  | [] => Return a
  | ix :: rest => let* a' := add_at1 a ix in add_at a' rest
  end.

(** [a.max()] and [a.sum()] of a two-dimensional array. *)
Definition max2 (a : list (list Z)) : py Z :=
  match concat a with
  | [] => Raise ValueError
  | v :: rest => Return (fold_left Z.max rest v)
  end.

Definition sum2 (a : list (list Z)) : Z := fold_left Z.add (concat a) 0.

(** [np.unique] on an array of strings: the distinct values in ascending
    order. *)
Fixpoint insert_unique (s : string) (l : list string) : list string :=
  match l with
  | [] => [s]
  | t :: rest =>
      if String.eqb s t then l
      else if String.ltb s t then s :: l
      else t :: insert_unique s rest
  end.

Definition unique (l : list string) : list string :=
  fold_right insert_unique [] l.

End Np.
Import Np.

(** ** density_estimation.py *)

Module Density.

Definition Bounds : Type := (Q * Q * Q * Q)%type.

(** The keys of the dictionary that [compute_grid_density] returns and
    [compute_smoothed_density] extends; a key that is not set is [None]. *)
Record GridResult : Type := mkGridResult {
  grid : list (list Z);
  grid_size : Q;
  bounds : Bounds;
  shape : option (Z * Z);
  max_count : option Z;
  total_count : option Z;
  by_label : option (list (string * list (list Z)))
}.

Record DensityEstimator : Type := mkDensityEstimator {
  centroids : list point;
  self_bounds : Bounds
}.

Definition padding : Q := 100.

Definition default_bounds : Bounds := (0, 0, 100000, 80000)%Q.

(** [DensityEstimator.__init__].  A 4-tuple is truthy, so [bounds or
    default] is [bounds] whenever bounds were passed. *)
Definition init (cs : list point) (b : option Bounds) : DensityEstimator :=
  match b, cs with
  | None, p :: rest =>
      mkDensityEstimator cs
        ((fold_left Qmin (map fst rest) (fst p) - padding)%Q,
         (fold_left Qmin (map snd rest) (snd p) - padding)%Q,
         (fold_left Qmax (map fst rest) (fst p) + padding)%Q,
         (fold_left Qmax (map snd rest) (snd p) + padding)%Q)
  | Some b', _ => mkDensityEstimator cs b'
  | None, [] => mkDensityEstimator cs default_bounds
  end.

(** [(hi - lo) / size]: dividing by a zero cell size does not produce a
    grid dimension.  (Python numbers raise ZeroDivisionError at the
    division; NumPy scalars give inf or nan, on which [int] raises.) *)
Definition extent_cells (lo hi size : Q) : py Z :=
  if Qeq_bool size 0 then Raise ZeroDivisionError
  else Return (ceil_int ((hi - lo) / size)%Q).

(** The bin of one coordinate before clipping. *)
Definition bin_of (lo size v : Q) : Z := astype_int ((v - lo) / size)%Q.

(** The clipped (row, column) = (y-bin, x-bin) of a point. *)
Definition cell_of (b : Bounds) (size : Q) (n_y n_x : Z) (p : point) : Z * Z :=
  let '(x_min, y_min, _, _) := b in
  (clip (bin_of y_min size (snd p)) 0 (n_y - 1),
   clip (bin_of x_min size (fst p)) 0 (n_x - 1)).

(** [mask = labels == label; (grid_y[mask], grid_x[mask])]: a boolean mask
    must have the length of the array it indexes. *)
Definition masked (cells : list (Z * Z)) (labels : list string) (label : string)
  : py (list (Z * Z)) :=
  if Nat.eqb (length labels) (length cells)
  then Return (map fst (filter (fun cl => String.eqb (snd cl) label = true)
                               (zip cells labels)))
  else Raise IndexError.

Fixpoint label_grids (n_y n_x : Z) (cells : list (Z * Z)) (labels : list string)
    (todo : list string) : py (list (string * list (list Z))) :=
  match todo with
  | [] => Return []
  | label :: rest =>
      let* sel := masked cells labels label in
      let* z := zeros n_y n_x in
      let* g := add_at z sel in
      let* more := label_grids n_y n_x cells labels rest in
      Return ((label, g) :: more)
  end.

Definition compute_grid_density (self : DensityEstimator) (size : Q)
    (labels : option (list string)) : py GridResult :=
  let '(x_min, y_min, x_max, y_max) := self_bounds self in
  let* n_x := extent_cells x_min x_max size in
  let* n_y := extent_cells y_min y_max size in
  match centroids self with
  | [] =>
      let* z := zeros n_y n_x in
      Return (mkGridResult z size (self_bounds self) None None None None)
  | _ =>
      let cells := map (cell_of (self_bounds self) size n_y n_x) (centroids self) in
      let* z := zeros n_y n_x in
      let* density_grid := add_at z cells in
      let* mx := max2 density_grid in
      let result :=
        mkGridResult density_grid size (self_bounds self)
                     (Some (n_y, n_x)) (Some mx) (Some (sum2 density_grid)) None in
      match labels with
      | None => Return result
      | Some ls =>
          let* grids := label_grids n_y n_x cells ls (unique ls) in
          Return (mkGridResult density_grid size (self_bounds self)
                    (Some (n_y, n_x)) (Some mx) (Some (sum2 density_grid))
                    (Some grids))
      end
  end.

(** *** Smoothing *)

(** [smoothed.max()] of a float array. *)
Definition qmax2 (a : list (list Q)) : py Q := amax (concat a).

Definition to_float (a : list (list Z)) : list (list Q) :=
  map (map inject_Z) a.

(** The dictionary of [compute_grid_density] with the two keys that
    [compute_smoothed_density] adds to it. *)
Record SmoothedResult : Type := mkSmoothedResult {
  grid_result : GridResult;
  smoothed_grid : list (list Q);
  sigma : Q
}.

(** The 1e-15 below which [scipy.ndimage.gaussian_filter] skips an axis. *)
Definition sigma_cutoff : Q := 1 # (10 ^ 15).

Section Smoothing.

(** The separable Gaussian convolution that [scipy.ndimage.gaussian_filter]
    runs along the axes whose sigma is above the cutoff. *)
Variable convolve : Q -> list (list Q) -> py (list (list Q)).

(** [gaussian_filter(input, sigma)]: with no axis above the cutoff the
    output is a copy of the input. *)
Definition gaussian_filter (input : list (list Q)) (sg : Q) : py (list (list Q)) :=
  if Qlt_le_dec sigma_cutoff sg then convolve sg input else Return input.

Definition compute_smoothed_density (self : DensityEstimator) (size sg : Q)
  : py SmoothedResult :=
  let* gr := compute_grid_density self size None in
  let* smoothed := gaussian_filter (to_float (grid gr)) sg in
  let* mx := qmax2 smoothed in
  let smoothed' :=
    if Qlt_le_dec 0 mx then map (map (fun v => v / mx)%Q) smoothed else smoothed in
  Return (mkSmoothedResult gr smoothed' sg).

End Smoothing.

(** *** Kernel density estimation *)

Inductive KdeFailure : Type :=
| InsufficientData
| ComputationFailed (e : exn).

Record KdeSurface : Type := mkKdeSurface {
  density : list (list Q);
  resolution : Z;
  kde_bounds : Bounds;
  x_coords : list Q;
  y_coords : list Q
}.

Inductive KdeResult : Type :=
| KdeError (why : KdeFailure)
| KdeOk (surface : KdeSurface).

(** [np.linspace(a, b, num)]. *)
Definition linspace (a b : Q) (num : Z) : py (list Q) :=
  if num <? 0 then Raise ValueError
  else if num =? 1 then Return [a]
  else Return (map (fun i : nat => a + inject_Z (Z.of_nat i) * ((b - a) / inject_Z (num - 1)))%Q
                   (seq 0 (Z.to_nat num))).

(** [np.vstack([xx.ravel(), yy.ravel()])] of [np.meshgrid(x_grid, y_grid)]:
    the mesh points row by row, one row per y. *)
Definition mesh_positions (x_grid y_grid : list Q) : list point :=
  concat (map (fun y => map (fun x => (x, y)) x_grid) y_grid).

(** [a.reshape(rows, cols)] of a flat array. *)
Fixpoint chunks {A : Type} (rows cols : nat) (a : list A) : list (list A) :=
  match rows with
  | O => []
  | S rows' => take cols a :: chunks rows' cols (drop cols a)
  end.

Definition reshape (a : list Q) (rows cols : Z) : py (list (list Q)) :=
  if Z.of_nat (length a) =? rows * cols
  then Return (chunks (Z.to_nat rows) (Z.to_nat cols) a)
  else Raise ValueError.

(** [self.centroids[indices]]. *)
Fixpoint take_indices (cs : list point) (indices : list nat) : py (list point) :=
  match indices with
  | [] => Return []
  | i :: rest =>
      match cs !! i with
      | None => Raise IndexError
      | Some p => let* more := take_indices cs rest in Return (p :: more)
      end
  end.

Definition kde_cap : nat := Z.to_nat 50000.

Definition kde_epsilon : Q := 1 # (10 ^ 10).

Section Kde.

(** The process-wide NumPy generator: [G] is its state and [choice g n k]
    is [np.random.choice(n, k, replace=False)] run in state [g], giving
    the drawn indices and the state it leaves behind. *)
Variable G : Type.
Variable choice : G -> nat -> nat -> list nat * G.

(** [gaussian_kde(sample, bw_method)(positions)]: fitting and evaluating
    the kernel; a singular covariance raises. *)
Variable gaussian_kde : list point -> option Q -> list point -> py (list Q).

(** Fitting the kernel on the sample, evaluating it on the mesh and
    normalising to [0, 1]. *)
Definition kde_fit (sample : py (list point)) (res : Z) (bandwidth : option Q)
    (positions : list point) : py (list (list Q)) :=
  let* smp := sample in
  let* flat := gaussian_kde smp bandwidth positions in
  let* dens := reshape flat res res in
  let* lo := amin (concat dens) in
  let* hi := amax (concat dens) in
  Return (map (map (fun v => (v - lo) / (hi - lo + kde_epsilon))%Q) dens).

(** The body of the [try] block: the sample is the point set, or 50,000
    of its points drawn by the generator when it has more. *)
Definition kde_try (self : DensityEstimator) (res : Z) (bandwidth : option Q)
    (positions : list point) (g : G) : py (list (list Q)) * G :=
  if Nat.ltb kde_cap (length (centroids self)) then
    let '(indices, g') := choice g (length (centroids self)) kde_cap in
    (kde_fit (take_indices (centroids self) indices) res bandwidth positions, g')
  else (kde_fit (Return (centroids self)) res bandwidth positions, g).

Definition compute_kde (self : DensityEstimator) (res : Z) (bandwidth : option Q)
    (g : G) : py KdeResult * G :=
  if Nat.ltb (length (centroids self)) 10 then (Return (KdeError InsufficientData), g)
  else
    let '(x_min, y_min, x_max, y_max) := self_bounds self in
    match linspace x_min x_max res, linspace y_min y_max res with
    | Return x_grid, Return y_grid =>
        match kde_try self res bandwidth (mesh_positions x_grid y_grid) g with
        | (Return dens, g') =>
            (Return (KdeOk (mkKdeSurface dens res (self_bounds self) x_grid y_grid)), g')
        | (Raise e, g') => (Return (KdeError (ComputationFailed e)), g')
        end
    | Raise e, _ => (Raise e, g)
    | _, Raise e => (Raise e, g)
    end.

End Kde.

End Density.

(** ** spatial_statistics.py *)

Module Stats.

(** *** scipy.spatial.KDTree, by what its queries return *)

Record KDTree : Type := mkKDTree { data : list point }.

Definition sqdist (p q : point) : Q :=
  ((fst p - fst q) * (fst p - fst q) + (snd p - snd q) * (snd p - snd q))%Q.

(** The Euclidean distance. *)
Definition distance (p q : point) : R := sqrt (Q2R (sqdist p q)).


(** The test of the tree queries.  SciPy keeps distances squared and
    compares them with the squared radius, so a negative radius selects
    what its absolute value selects. *)
Definition kd_within (r : Q) (p q : point) : bool :=
  Qle_bool (sqdist p q) (r * r).

#[local] Instance Rle_decision (x y : R) : Decision (x <= y)%R := Rle_dec x y.

(** [np.sort] of a float array. *)
Definition rsort (l : list R) : list R := merge_sort Rle l.

(** Column 1 of [tree.query(p, k=2)]: the second smallest distance from
    [p] to the points of the tree.  (With fewer than two points SciPy fills
    the column with inf; the engine returns before querying such a tree.) *)
Definition query_second (t : KDTree) (p : point) : R :=
  nth 1 (rsort (map (distance p) (data t))) 0%R.

Definition index_pairs (n : nat) : list (nat * nat) :=
  concat (map (fun i => map (fun j => (i, j)) (seq (S i) (n - S i))) (seq 0 n)).

Definition pair_within (r : Q) (pts : list point) (ij : nat * nat) : bool :=
  match pts !! fst ij, pts !! snd ij with
  | Some p, Some q => kd_within r p q
  | _, _ => false
  end.

(** [tree.query_pairs(r)]: the pairs (i, j), i < j, whose squared
    distance is at most r squared. *)
Definition query_pairs (t : KDTree) (r : Q) : list (nat * nat) :=
  List.filter (pair_within r (data t)) (index_pairs (length (data t))).

(** [tree.query_ball_tree(tree, r)]: for every point i the indices of the
    points whose squared distance is at most r squared, the point itself
    among them. *)
Definition query_ball_tree (t : KDTree) (r : Q) : list (list nat) :=
  map (fun p => List.filter (fun j => match data t !! j with
                                      | Some q => kd_within r p q
                                      | None => false
                                      end)
                            (seq 0 (length (data t))))
      (data t).

(** *** The engine *)

Record SpatialStatisticsEngine : Type := mkEngine {
  centroids : list point;
  labels : option (list string);
  tree : option KDTree
}.

Definition init (cs : list point) (ls : option (list string)) : SpatialStatisticsEngine :=
  mkEngine cs ls (match cs with [] => None | _ :: _ => Some (mkKDTree cs) end).

(** *** Descriptive statistics of a float array (NumPy) *)

Definition rsum (l : list R) : R := fold_right Rplus 0%R l.

Definition mean (l : list R) : R := (rsum l / INR (length l))%R.

Definition median (l : list R) : R :=
  let s := rsort l in
  let n := length l in
  if Nat.even n then ((nth (n / 2 - 1) s 0 + nth (n / 2) s 0) / 2)%R
  else nth (n / 2) s 0%R.

Definition std (l : list R) : R :=
  let m := mean l in sqrt (mean (map (fun x => (x - m) * (x - m))%R l)).

Definition rmin (l : list R) : R :=
  match l with [] => 0%R | x :: rest => fold_left Rmin rest x end.

Definition rmax (l : list R) : R :=
  match l with [] => 0%R | x :: rest => fold_left Rmax rest x end.

(** [np.percentile(l, q)], linear interpolation: the virtual index is
    [q/100 * (n-1)]. *)
Definition percentile (l : list R) (q : nat) : R :=
  let s := rsort l in
  let pos := (q * (length l - 1))%nat in
  let lo := (pos / 100)%nat in
  let gamma := (INR (pos mod 100) / 100)%R in
  (nth lo s 0 + gamma * (nth (Nat.min (S lo) (length l - 1)) s 0 - nth lo s 0))%R.

Definition n_bins : nat := 50.

(** The bin edges of [np.histogram(l, bins=50)]: 51 evenly spaced values
    from the minimum to the maximum, widened by 0.5 on both sides when the
    two coincide. *)
Definition bin_edges (l : list R) : list R :=
  let lo := rmin l in
  let hi := rmax l in
  let '(lo, hi) := if Req_dec_T lo hi then ((lo - / 2)%R, (hi + / 2)%R) else (lo, hi) in
  map (fun i => (lo + INR i * ((hi - lo) / INR n_bins))%R) (seq 0 (S n_bins)).

(** Bin [k] holds the values in [[e_k, e_k+1)], the last bin also its
    right edge. *)
Definition in_bin (edges : list R) (k : nat) (x : R) : bool :=
  let a := nth k edges 0%R in
  let b := nth (S k) edges 0%R in
  if Rle_dec a x then
    if Nat.eqb (S k) n_bins then (if Rle_dec x b then true else false)
    else (if Rlt_dec x b then true else false)
  else false.

Definition hist_counts (l : list R) : list nat :=
  let edges := bin_edges l in
  map (fun k => length (List.filter (in_bin edges k) l)) (seq 0 n_bins).

Definition bin_centers (l : list R) : list R :=
  let edges := bin_edges l in
  map (fun k => ((nth k edges 0 + nth (S k) edges 0) / 2)%R) (seq 0 n_bins).

Record NNStats : Type := mkNNStats {
  nn_mean : R;
  nn_median : R;
  nn_std : R;
  nn_min : R;
  nn_max : R;
  percentile_25 : R;
  percentile_75 : R;
  percentile_95 : R;
  histogram_counts : list nat;
  histogram_bin_centers : list R
}.

Inductive NNResult : Type :=
| NNError
| NNOk (stats : NNStats).

Definition describe (nn : list R) : NNStats :=
  mkNNStats (mean nn) (median nn) (std nn) (rmin nn) (rmax nn)
            (percentile nn 25) (percentile nn 75) (percentile nn 95)
            (hist_counts nn) (bin_centers nn).

(** [distances[:, 1]] of [self.tree.query(self.centroids, k=2)]. *)
Definition nn_distances (t : KDTree) (cs : list point) : list R :=
  map (query_second t) cs.

Definition compute_nearest_neighbor_distribution (self : SpatialStatisticsEngine)
  : NNResult :=
  match tree self with
  | None => NNError
  | Some t =>
      if Nat.ltb (length (centroids self)) 2 then NNError
      else NNOk (describe (nn_distances t (centroids self)))
  end.

(** *** Ripley's K *)

Record RipleyCurves : Type := mkRipleyCurves {
  radii : list Q;
  k_observed : list Q;
  k_expected_csr : list R;
  l_function : list (option R);
  is_clustered : list bool
}.

Inductive RipleyResult : Type :=
| RipleyError
| RipleyOk (curves : RipleyCurves).

(** [area * count / (n * (n - 1)) if n > 1 else 0]. *)
Definition k_at (t : KDTree) (n : nat) (area r : Q) : Q :=
  let count := (length (query_pairs t r) * 2)%nat in
  if Nat.ltb 1 n
  then (area * inject_Z (Z.of_nat count) / inject_Z (Z.of_nat (n * (n - 1))))%Q
  else 0%Q.

(** [np.sqrt(k_r / np.pi) - r]; the square root of a negative number is
    nan, written [None]. *)
Definition l_at (k_r r : Q) : option R :=
  if Rle_dec 0 (Q2R k_r / PI) then Some (sqrt (Q2R k_r / PI) - Q2R r)%R else None.

(** [np.pi * r ** 2]. *)
Definition csr_at (r : Q) : R := (PI * (Q2R r * Q2R r))%R.

(** [k > csr]. *)
Definition exceeds (k_r : Q) (csr : R) : bool :=
  if Rlt_dec csr (Q2R k_r) then true else false.

Definition compute_ripleys_k (self : SpatialStatisticsEngine) (rs : list Q) (area : Q)
  : py RipleyResult :=
  match tree self with
  | None => Return RipleyError
  | Some t =>
      let n := length (centroids self) in
      (* density = n / area *)
      if Qeq_bool area 0 then Raise ZeroDivisionError
      else
        let k_values := map (k_at t n area) rs in
        let l_values := map (fun r => l_at (k_at t n area r) r) rs in
        let csr_k := map csr_at rs in
        Return (RipleyOk (mkRipleyCurves rs k_values csr_k l_values
                            (map (fun kc => exceeds (fst kc) (snd kc)) (zip k_values csr_k))))
  end.

(** *** Label colocalization *)

(** [cooccurrence[label_i][label_j] += 1] on the defaultdict of
    defaultdicts. *)
Definition bump (label_i label_j : string) (c : gmap string (gmap string nat))
  : gmap string (gmap string nat) :=
  let row := default ∅ (c !! label_i) in
  <[label_i := <[label_j := S (default 0%nat (row !! label_j))]> row]> c.

Definition visit_neighbor (ls : list string) (i : nat) (label_i : string)
    (c : gmap string (gmap string nat)) (j : nat) : py (gmap string (gmap string nat)) :=
  if Nat.eqb i j then Return c
  else match ls !! j with
       | None => Raise IndexError
       | Some label_j => Return (bump label_i label_j c)
       end.

Fixpoint for_each {S A : Type} (body : S -> A -> py S) (s : S) (l : list A) : py S :=
  match l with
  | [] => Return s
  | a :: rest => let* s' := body s a in for_each body s' rest
  end.

Definition visit_point (ls : list string)
    (st : gmap string (gmap string nat) * gmap string nat)
    (item : nat * list nat) : py (gmap string (gmap string nat) * gmap string nat) :=
  let '(c, counts) := st in
  let '(i, neighbors) := item in
  match ls !! i with
  | None => Raise IndexError
  | Some label_i =>
      let counts' := <[label_i := S (default 0%nat (counts !! label_i))]> counts in
      let* c' := for_each (visit_neighbor ls i label_i) c neighbors in
      Return (c', counts')
  end.

(** [sum(cooccurrence[label_i].values())]. *)
Definition row_total (row : gmap string nat) : nat :=
  map_fold (fun _ v acc => (v + acc)%nat) 0%nat row.

Definition qnat (n : nat) : Q := inject_Z (Z.of_nat n).

Definition score_row (uniq : list string) (c : gmap string (gmap string nat))
    (label_i : string) : list (string * Q) :=
  let row := default ∅ (c !! label_i) in
  let total_neighbors := row_total row in
  map (fun label_j =>
         (label_j,
          if Nat.ltb 0 total_neighbors
          then (qnat (default 0%nat (row !! label_j)) / qnat total_neighbors)%Q
          else 0%Q))
      uniq.

Record Colocalization : Type := mkColocalization {
  coloc_radius : Q;
  colocalization_matrix : list (string * list (string * Q));
  label_counts : gmap string nat
}.

Inductive ColocResult : Type :=
| MissingLabels
| ColocOk (c : Colocalization).

Definition enumerate {A : Type} (l : list A) : list (nat * A) :=
  zip (seq 0 (length l)) l.

Section BallQuery.

(** [tree.query_ball_tree(tree, radius)], SciPy's answer: one list of
    neighbor indices per point. *)
Variable ball_query : KDTree -> Q -> list (list nat).

Definition compute_label_colocalization_with (self : SpatialStatisticsEngine)
    (radius : Q) : py ColocResult :=
  match labels self with
  | None => Return MissingLabels
  | Some ls =>
      let uniq := unique ls in
      match tree self with
      | None => Raise AttributeError
      | Some t =>
          let indices := ball_query t radius in
          let* st := for_each (visit_point ls) (∅, ∅) (enumerate indices) in
          Return (ColocOk (mkColocalization radius
                             (map (fun label_i => (label_i, score_row uniq (fst st) label_i)) uniq)
                             (snd st)))
      end
  end.

End BallQuery.

(** The operation on the tree of this embedding. *)
Definition compute_label_colocalization (self : SpatialStatisticsEngine) (radius : Q)
  : py ColocResult :=
  compute_label_colocalization_with query_ball_tree self radius.

(** *** Hotspot detection *)

Record Hotspot : Type := mkHotspot {
  grid_x : Z;
  grid_y : Z;
  center_x : Q;
  center_y : Q;
  count : Z;
  hs_density : Q
}.

(** The keys of the returned dictionary; for an empty point set only
    ['hotspots'] is set. *)
Record HotspotResult : Type := mkHotspotResult {
  hotspots : list Hotspot;
  hs_grid_size : option Q;
  total_cells : option nat;
  n_hotspots : option nat;
  max_density : option Q;
  mean_density : option Q
}.

(** [int(np.ceil((hi - lo) / size))] on NumPy scalars: a zero divisor
    gives nan or inf, which [int] refuses. *)
Definition np_cells (lo hi size : Q) : py Z :=
  if Qeq_bool size 0 then
    if Qeq_bool (hi - lo) 0 then Raise ValueError else Raise OverflowError
  else Return (ceil_int ((hi - lo) / size)%Q).

(** [hotspots.sort(key=density, reverse=True)]: stable, descending. *)
Fixpoint insert_desc (h : Hotspot) (l : list Hotspot) : list Hotspot :=
  match l with
  | [] => [h]
  | h' :: rest =>
      if Qle_bool (hs_density h') (hs_density h) then h :: l
      else h' :: insert_desc h rest
  end.

Definition sort_desc (l : list Hotspot) : list Hotspot := fold_right insert_desc [] l.

Definition cell_count (g : list (list Z)) (ix iy : nat) : Z :=
  default 0 (row ← g !! ix; row !! iy).

Definition compute_hotspot_detection (self : SpatialStatisticsEngine)
    (cell_size min_density : Q) : py HotspotResult :=
  match centroids self with
  | [] => Return (mkHotspotResult [] None None None None None)
  | p :: rest =>
      let x_min := fold_left Qmin (map fst rest) (fst p) in
      let y_min := fold_left Qmin (map snd rest) (snd p) in
      let x_max := fold_left Qmax (map fst rest) (fst p) in
      let y_max := fold_left Qmax (map snd rest) (snd p) in
      let* n_x := np_cells x_min x_max cell_size in
      let* n_y := np_cells y_min y_max cell_size in
      let cells :=
        map (fun c : point =>
               (clip (astype_int ((fst c - x_min) / cell_size)%Q) 0 (n_x - 1),
                clip (astype_int ((snd c - y_min) / cell_size)%Q) 0 (n_y - 1)))
            (centroids self) in
      let* z := zeros n_x n_y in
      let* grid_counts := add_at z cells in
      let cell_area := (cell_size * cell_size)%Q in
      let dens := fun v : Z => (inject_Z v / cell_area * 10000)%Q in
      let found :=
        concat (map (fun ix =>
          omap (fun iy =>
                  let v := cell_count grid_counts ix iy in
                  if Qle_bool min_density (dens v)
                  then Some (mkHotspot (Z.of_nat ix) (Z.of_nat iy)
                               (x_min + (inject_Z (Z.of_nat ix) + (1 # 2)) * cell_size)%Q
                               (y_min + (inject_Z (Z.of_nat iy) + (1 # 2)) * cell_size)%Q
                               v (dens v))
                  else None)
               (seq 0 (Z.to_nat n_y)))
          (seq 0 (Z.to_nat n_x))) in
      let sorted := sort_desc found in
      let* mx := amax (map dens (concat grid_counts)) in
      let occupied := List.filter (fun v => 0 <? v) (concat grid_counts) in
      Return (mkHotspotResult sorted (Some cell_size)
                (Some (length (centroids self))) (Some (length sorted))
                (Some mx)
                (match occupied with
                 | [] => None
                 | _ => Some (fold_right Qplus 0 (map dens occupied)
                              / qnat (length occupied))%Q
                 end))
  end.

End Stats.

(** ** density_estimation.py: contours and the point probe *)

Module Contours.

#[local] Instance Qle_decision (x y : Q) : Decision (x <= y)%Q :=
  match Qlt_le_dec y x with
  | left H => right (Qlt_not_le _ _ H)
  | right H => left H
  end.

(** [np.sort] of a float array of rationals. *)
Definition qsort (l : list Q) : list Q := merge_sort Qle l.

(** [np.percentile(a, p)], linear interpolation: the virtual index is
    [p / 100 * (n - 1)], the value lies between the entries below and
    above it. *)
Definition qpercentile (a : list Q) (p : Q) : Q :=
  let s := qsort a in
  let t := (p / 100 * inject_Z (Z.of_nat (length a - 1)))%Q in
  let lo := Z.to_nat (Qfloor t) in
  let hi := Nat.min (S lo) (length a - 1) in
  let gamma := (t - inject_Z (Qfloor t))%Q in
  (nth lo s 0 + gamma * (nth hi s 0 - nth lo s 0))%Q.

(** The cutoff 0.01 of [smoothed[smoothed > 0.01]]. *)
Definition contour_cutoff : Q := 1 # 100.

(** The dictionary of [compute_smoothed_density] with the keys that
    [compute_contours] adds: 'percentiles' is set only when there are
    values above the cutoff. *)
Record ContourResult : Type := mkContourResult {
  smoothed_result : Density.SmoothedResult;
  contour_levels : list Q;
  percentiles : option (list Q)
}.

Section WithFilter.

Variable convolve : Q -> list (list Q) -> py (list (list Q)).

Definition compute_contours (self : Density.DensityEstimator) (size : Q)
    (n_levels : Z) (sg : Q) : py ContourResult :=
  let* sr := Density.compute_smoothed_density convolve self size sg in
  let non_zero :=
    List.filter (fun v => negb (Qle_bool v contour_cutoff))
                (concat (Density.smoothed_grid sr)) in
  match non_zero with
  | [] => Return (mkContourResult sr [] None)
  | _ =>
      let* ps := Density.linspace 20 95 n_levels in
      Return (mkContourResult sr (map (qpercentile non_zero) ps) (Some ps))
  end.

End WithFilter.



End Contours.

(** ** spatial_statistics.py: the summary *)

Module Summary.

(** [np.unique(labels, return_counts=True)] zipped into a dictionary. *)
Definition label_distribution_of (ls : list string) : list (string * nat) :=
  map (fun l => (l, length (List.filter (String.eqb l) ls))) (unique ls).

Definition qmean (xs : list Q) : Q :=
  (fold_right Qplus 0 xs / inject_Z (Z.of_nat (length xs)))%Q.

Record SummaryStats : Type := mkSummaryStats {
  total_count : nat;
  density : Q;
  centroid_x : Q;
  centroid_y : Q;
  extent_x_min : Q;
  extent_x_max : Q;
  extent_y_min : Q;
  extent_y_max : Q;
  nearest_neighbor : Stats.NNResult;
  label_distribution : option (list (string * nat))
}.

Inductive SummaryResult : Type :=
| NoDataPoints
| SummaryOk (s : SummaryStats).

Definition compute_summary_statistics (self : Stats.SpatialStatisticsEngine) (area : Q)
  : py SummaryResult :=
  match Stats.centroids self with
  | [] => Return NoDataPoints
  | p :: rest =>
      let n := length (Stats.centroids self) in
      (* n / area * 1e6 *)
      if Qeq_bool area 0 then Raise ZeroDivisionError
      else
        let xs := map fst (Stats.centroids self) in
        let ys := map snd (Stats.centroids self) in
        Return (SummaryOk (mkSummaryStats
          n
          (inject_Z (Z.of_nat n) / area * 1000000)%Q
          (qmean xs) (qmean ys)
          (fold_left Qmin (map fst rest) (fst p))
          (fold_left Qmax (map fst rest) (fst p))
          (fold_left Qmin (map snd rest) (snd p))
          (fold_left Qmax (map snd rest) (snd p))
          (Stats.compute_nearest_neighbor_distribution self)
          (option_map label_distribution_of (Stats.labels self))))
  end.

End Summary.

(** ** Binary64 *)

Module Float64.

Import PrimFloat.

(** The rational value of a finite double; an infinity and a nan have
    none. *)
Definition value (f : float) : option Q :=
  match FloatOps.Prim2SF f with
  | SpecFloat.S754_zero _ => Some 0%Q
  | SpecFloat.S754_finite s m e =>
      Some (inject_Z (if s then Z.neg m else Z.pos m) * Qpower 2 e)%Q
  | _ => None
  end.

(** [int(np.ceil(f))]: [int] refuses an infinity with OverflowError and
    a nan with ValueError. *)
Definition ceil_int (f : float) : py Z :=
  match value f with
  | Some q => Return (Np.ceil_int q)
  | None => if is_nan f then Raise ValueError else Raise OverflowError
  end.

Definition int64_min : Z := - 2 ^ 63.

(** [.astype(int)] on a float64 array: the C cast to int64, truncation
    toward zero.  What does not fit, an infinity or a nan is undefined in
    C; on x86-64 the conversion gives -2^63. *)
Definition astype_int (f : float) : Z :=
  match value f with
  | Some q =>
      let t := Np.astype_int q in
      if (int64_min <=? t) && (t <? 2 ^ 63) then t else int64_min
  | None => int64_min
  end.

(** A Python int (a length, a count) as a float. *)
Definition of_nat (n : nat) : float := of_uint63 (Uint63.of_Z (Z.of_nat n)).

(** [np.pi]. *)
Definition pi : float := 0x1.921fb54442d18p+1%float.

(** [np.zeros((rows, cols))] of float64 with the limits of the index
    type: a dimension of 2^63 or more, or 2^63 bytes or more in all, is a
    ValueError, as is a negative dimension. *)
Definition zeros (rows cols : Z) : py (list (list Z)) :=
  if (2 ^ 63 <=? rows) || (2 ^ 63 <=? cols) || (2 ^ 63 <=? rows * cols * 8)
  then Raise ValueError
  else Np.zeros rows cols.

End Float64.

(** ** density_estimation.py in binary64 *)

Module Density64.

Import PrimFloat.

Definition point : Type := (float * float)%type.

Definition Bounds : Type := (float * float * float * float)%type.

Record GridResult : Type := mkGridResult {
  grid : list (list Z);
  grid_size : float;
  bounds : Bounds;
  shape : option (Z * Z);
  max_count : option Z;
  total_count : option Z;
  by_label : option (list (string * list (list Z)))
}.

(** The estimator as [__init__] leaves it.  [derived] tells the bounds
    that [__init__] computed from the centroids, which are NumPy scalars,
    from the bounds the caller passed, which are Python numbers. *)
Record DensityEstimator : Type := mkDensityEstimator {
  centroids : list point;
  self_bounds : Bounds;
  derived : bool
}.

(** [int(np.ceil((hi - lo) / size))].  Python numbers raise
    ZeroDivisionError at a zero divisor; NumPy scalars divide to an
    infinity or a nan. *)
Definition extent_cells (numpy : bool) (lo hi size : float) : py Z :=
  if negb numpy && (size =? 0)%float then Raise ZeroDivisionError
  else Float64.ceil_int ((hi - lo) / size)%float.

(** The bin of one coordinate before clipping. *)
Definition bin_of (lo size v : float) : Z :=
  Float64.astype_int ((v - lo) / size)%float.

(** The clipped (row, column) = (y-bin, x-bin) of a point. *)
Definition cell_of (b : Bounds) (size : float) (n_y n_x : Z) (p : point) : Z * Z :=
  let '(x_min, y_min, _, _) := b in
  (clip (bin_of y_min size (snd p)) 0 (n_y - 1),
   clip (bin_of x_min size (fst p)) 0 (n_x - 1)).

Definition compute_grid_density (self : DensityEstimator) (size : float)
    (labels : option (list string)) : py GridResult :=
  let '(x_min, y_min, x_max, y_max) := self_bounds self in
  let* n_x := extent_cells (derived self) x_min x_max size in
  let* n_y := extent_cells (derived self) y_min y_max size in
  match centroids self with
  | [] =>
      let* z := Float64.zeros n_y n_x in
      Return (mkGridResult z size (self_bounds self) None None None None)
  | _ =>
      let cells := map (cell_of (self_bounds self) size n_y n_x) (centroids self) in
      let* z := Float64.zeros n_y n_x in
      let* density_grid := add_at z cells in
      let* mx := max2 density_grid in
      match labels with
      | None =>
          Return (mkGridResult density_grid size (self_bounds self)
                    (Some (n_y, n_x)) (Some mx) (Some (sum2 density_grid)) None)
      | Some ls =>
          let* grids := Density.label_grids n_y n_x cells ls (unique ls) in
          Return (mkGridResult density_grid size (self_bounds self)
                    (Some (n_y, n_x)) (Some mx) (Some (sum2 density_grid))
                    (Some grids))
      end
  end.

End Density64.

(** ** spatial_statistics.py in binary64: Ripley's K *)

Module Stats64.

Import PrimFloat.

Definition point : Type := (float * float)%type.

Record KDTree : Type := mkKDTree { data : list point }.

Record SpatialStatisticsEngine : Type := mkEngine {
  centroids : list point;
  labels : option (list string);
  tree : option KDTree
}.

Definition init (cs : list point) (ls : option (list string)) : SpatialStatisticsEngine :=
  mkEngine cs ls (match cs with [] => None | _ :: _ => Some (mkKDTree cs) end).

Record RipleyCurves : Type := mkRipleyCurves {
  radii : list float;
  k_observed : list float;
  k_expected_csr : list float;
  l_function : list float;
  is_clustered : list bool
}.

Inductive RipleyResult : Type :=
| RipleyError
| RipleyOk (curves : RipleyCurves).

Section PairQuery.

(** [tree.query_pairs(r)]: SciPy's answer, of which the engine takes the
    length. *)
Variable query_pairs : KDTree -> float -> list (nat * nat).

(** [area * count / (n * (n - 1)) if n > 1 else 0]: the float [area]
    times the int [count], divided by the int [n * (n - 1)]. *)
Definition k_at (t : KDTree) (n : nat) (area r : float) : float :=
  let count := (length (query_pairs t r) * 2)%nat in
  if Nat.ltb 1 n
  then (area * Float64.of_nat count / Float64.of_nat (n * (n - 1)))%float
  else 0%float.

(** [np.sqrt(k_r / np.pi) - r]; the square root of a negative number is
    a nan. *)
Definition l_at (k_r r : float) : float := (sqrt (k_r / Float64.pi) - r)%float.

(** [np.pi * r ** 2]; NumPy squares by multiplying. *)
Definition csr_at (r : float) : float := (Float64.pi * (r * r))%float.

Definition compute_ripleys_k (self : SpatialStatisticsEngine) (rs : list float)
    (area : float) : py RipleyResult :=
  match tree self with
  | None => Return RipleyError
  | Some t =>
      let n := length (centroids self) in
      (* density = n / area *)
      if (area =? 0)%float then Raise ZeroDivisionError
      else
        let k_values := map (k_at t n area) rs in
        let l_values := map (fun r => l_at (k_at t n area r) r) rs in
        let csr_k := map csr_at rs in
        Return (RipleyOk (mkRipleyCurves rs k_values csr_k l_values
                            (map (fun kc => (snd kc <? fst kc)%float)
                                 (zip k_values csr_k))))
  end.

End PairQuery.

(** The squared distance as SciPy accumulates it, and the distance. *)
Definition sqdist (p q : point) : float :=
  ((fst p - fst q) * (fst p - fst q) + (snd p - snd q) * (snd p - snd q))%float.

Definition distance (p q : point) : float := sqrt (sqdist p q).


End Stats64.

(** ** Vocabulary of the statements in binary64 *)

Module Props64.

(** [n] is the ceiling of the finite double [f]. *)
Definition ceiling_of (f : PrimFloat.float) (n : Z) : Prop :=
  exists q, Float64.value f = Some q
            /\ (inject_Z n - 1 < q)%Q /\ (q <= inject_Z n)%Q.

(** [j] is the bin of the quotient [f] among [n] bins: the integer part
    of [f], replaced by 0 below the range and by n - 1 above it.  (For a
    quotient of 2^63 or more, an infinity or a nan the cast to int64 is
    not defined; only the range of [j] is stated.) *)
Definition clamped_bin (f : PrimFloat.float) (n j : Z) : Prop :=
  0 <= j <= n - 1
  /\ forall q, Float64.value f = Some q ->
       ((q < 1)%Q -> j = 0)
       /\ ((1 <= q)%Q -> (q < inject_Z n)%Q ->
             (inject_Z j <= q)%Q /\ (q < inject_Z j + 1)%Q)
       /\ ((inject_Z n <= q)%Q -> (q < inject_Z (2 ^ 63))%Q -> j = n - 1).

End Props64.

(** ** Vocabulary of the statements *)

Module Props.

(** [m] is the least (greatest) element of [l]. *)
Definition is_min (m : Q) (l : list Q) : Prop :=
  In m l /\ forall x, In x l -> (m <= x)%Q.

Definition is_max (m : Q) (l : list Q) : Prop :=
  In m l /\ forall x, In x l -> (x <= m)%Q.

(** Rectangles with equal coordinates. *)
Definition bounds_eq (a b : Density.Bounds) : Prop :=
  let '(a1, a2, a3, a4) := a in
  let '(b1, b2, b3, b4) := b in
  (a1 == b1 /\ a2 == b2 /\ a3 == b3 /\ a4 == b4)%Q.

(** A rows-by-cols array. *)
Definition has_shape {A : Type} (g : list (list A)) (rows cols : nat) : Prop :=
  length g = rows /\ Forall (fun row => length row = cols) g.

(** Entry (i, j) of a two-dimensional array. *)
Definition entry {A : Type} (g : list (list A)) (i j : nat) : option A :=
  row ← g !! i; row !! j.

(** How many of the index pairs name cell (i, j). *)
Definition hits (cells : list (Z * Z)) (i j : nat) : Z :=
  Z.of_nat (length (List.filter
    (fun c => (fst c =? Z.of_nat i) && (snd c =? Z.of_nat j)) cells)).

(** Float arrays with equal entries. *)
Definition grid_eq (a b : list (list Q)) : Prop := Forall2 (Forall2 Qeq) a b.

(** Points i and j exist and lie at distance at most |r|. *)
Definition close (pts : list point) (r : Q) (i j : nat) : Prop :=
  exists p q, pts !! i = Some p /\ pts !! j = Some q
              /\ (Stats.distance p q <= Rabs (Q2R r))%R.

(** The (point, neighbor) index pairs of a pass over the neighbor lists,
    a point not being a neighbor of itself. *)
Definition ball_pairs (items : list (nat * list nat)) : list (nat * nat) :=
  List.filter (fun ij => negb (Nat.eqb (fst ij) (snd ij)))
              (concat (map (fun it => map (pair (fst it)) (snd it)) items)).





(** Row [l] of the co-occurrence counts and the number of neighbors
    counted in it. *)
Definition row_of (c : gmap string (gmap string nat)) (l : string) : gmap string nat :=
  default ∅ (c !! l).

Definition total (c : gmap string (gmap string nat)) (l : string) : nat :=
  Stats.row_total (row_of c l).



(** The order of [np.unique] on strings. *)
Definition string_lt (s t : string) : Prop := String.ltb s t = true.

(** What [compute_kde] returns once the sample is fixed. *)
Definition kde_outcome (gaussian_kde : list point -> option Q -> list point -> py (list Q))
    (self : Density.DensityEstimator) (res : Z) (bw : option Q)
    (sample : py (list point)) : py Density.KdeResult :=
  if Nat.ltb (length (Density.centroids self)) 10
  then Return (Density.KdeError Density.InsufficientData)
  else
    let '(x_min, y_min, x_max, y_max) := Density.self_bounds self in
    match Density.linspace x_min x_max res, Density.linspace y_min y_max res with
    | Return x_grid, Return y_grid =>
        match Density.kde_fit gaussian_kde sample res bw
                (Density.mesh_positions x_grid y_grid) with
        | Return dens =>
            Return (Density.KdeOk
                      (Density.mkKdeSurface dens res (Density.self_bounds self)
                                            x_grid y_grid))
        | Raise e => Return (Density.KdeError (Density.ComputationFailed e))
        end
    | Raise e, _ => Raise e
    | _, Raise e => Raise e
    end.

(** Two outcomes of [compute_kde] with the same content. *)
Definition kde_same (a b : py Density.KdeResult) : Prop :=
  match a, b with
  | Return (Density.KdeOk s1), Return (Density.KdeOk s2) =>
      grid_eq (Density.density s1) (Density.density s2)
  | Return (Density.KdeError e1), Return (Density.KdeError e2) => e1 = e2
  | Raise e1, Raise e2 => e1 = e2
  | _, _ => False
  end.


End Props.
Import Props.

(** ** A small generator and kernel to run [compute_kde] with

    [compute_kde] is written against NumPy's process-wide generator and
    SciPy's [gaussian_kde].  To run it, this generator keeps a counter as
    its state: an even state draws the first k of the n indices, an odd
    state the k indices from 1 on, and every draw advances the counter.
    The kernel is a box kernel: the density at a mesh point is the number
    of sample points within the bandwidth (1 by default) in both
    coordinates. *)

Module Toy.

Definition choice (g n k : nat) : list nat * nat :=
  (if Nat.even g then seq 0 k else seq 1 k, S g).

Definition near (h : Q) (p q : point) : bool :=
  Qle_bool (Qabs (fst p - fst q)) h && Qle_bool (Qabs (snd p - snd q)) h.

Definition box_kde (sample : list point) (bandwidth : option Q) (positions : list point)
  : py (list Q) :=
  let h := default 1%Q bandwidth in
  Return (map (fun pos => inject_Z (Z.of_nat (length (List.filter (near h pos) sample))))
              positions).

(** 50,001 points in the square (0, 0, 10, 10): one at the origin, one at
    (10, 10), the others at (10, 0). *)
Definition crowd : list point :=
  (0, 0)%Q :: (10, 10)%Q :: replicate (Z.to_nat 49999) (10, 0)%Q.

Definition crowded : Density.DensityEstimator :=
  Density.init crowd (Some (0, 0, 10, 10)%Q).

(** Two calls of [compute_kde] one after the other, the second in the
    generator state the first one left. *)
Definition twice (self : Density.DensityEstimator) (res : Z) (bw : option Q) (g : nat)
  : py Density.KdeResult * py Density.KdeResult :=
  let '(r1, g1) := Density.compute_kde nat choice box_kde self res bw g in
  let '(r2, _) := Density.compute_kde nat choice box_kde self res bw g1 in
  (r1, r2).

End Toy.

(** ** Vocabulary of the further properties *)

Module MoreProps.


(** Whether label [l] is the label of point [i]. *)
Definition labelled (ls : list string) (l : string) (it : nat * list nat) : bool :=
  match ls !! fst it with
  | Some l' => String.eqb l l'
  | None => false
  end.

(** The (x-bin, y-bin) pairs of hotspot detection, clipped. *)
Definition hs_cells (cs : list point) (s x_min y_min : Q) (n_x n_y : Z) : list (Z * Z) :=
  map (fun c : point =>
         (clip (astype_int ((fst c - x_min) / s)%Q) 0 (n_x - 1),
          clip (astype_int ((snd c - y_min) / s)%Q) 0 (n_y - 1)))
      cs.

(** Points per 10,000 square units in a cell holding [v] points. *)
Definition hs_dens (s : Q) (v : Z) : Q := (inject_Z v / (s * s) * 10000)%Q.

(** The hotspot record of cell (ix, iy) holding [v] points. *)
Definition hs_record (s x_min y_min : Q) (ix iy : nat) (v : Z) : Stats.Hotspot :=
  Stats.mkHotspot (Z.of_nat ix) (Z.of_nat iy)
    (x_min + (inject_Z (Z.of_nat ix) + (1 # 2)) * s)%Q
    (y_min + (inject_Z (Z.of_nat iy) + (1 # 2)) * s)%Q
    v (hs_dens s v).

(** The cells at or above the threshold, in scan order. *)
Definition hs_found (g : list (list Z)) (s d x_min y_min : Q) (n_x n_y : Z)
  : list Stats.Hotspot :=
  concat (map (fun ix =>
    omap (fun iy =>
            let v := Stats.cell_count g ix iy in
            if Qle_bool d (hs_dens s v) then Some (hs_record s x_min y_min ix iy v)
            else None)
         (seq 0 (Z.to_nat n_y)))
    (seq 0 (Z.to_nat n_x))).

(** Descending by density. *)
Definition desc (a b : Stats.Hotspot) : Prop :=
  (Stats.hs_density b <= Stats.hs_density a)%Q.

End MoreProps.
Import MoreProps.

(** ** Lemmas on the NumPy operations *)

Section NumpyFacts.

Lemma Qmin_cases (x y : Q) : Qmin x y = x \/ Qmin x y = y.
Proof.
  unfold Qmin, GenericMinMax.gmin. destruct (x ?= y)%Q; auto.
Qed.

Lemma Qmax_cases (x y : Q) : Qmax x y = x \/ Qmax x y = y.
Proof.
  unfold Qmax, GenericMinMax.gmax. destruct (x ?= y)%Q; auto.
Qed.

Lemma fold_Qmin_is_min (l : list Q) (x : Q) : is_min (fold_left Qmin l x) (x :: l).
Proof.
  revert x. induction l as [|y l IH]; intros x; simpl.
  - split; [now left|]. intros z [<-|[]]. apply Qle_refl.
  - destruct (IH (Qmin x y)) as [Hin Hle]. split.
    + destruct Hin as [Hin|Hin]; [|now right; right].
      rewrite <- Hin. destruct (Qmin_cases x y) as [->| ->]; [now left|now right; left].
    + intros z Hz.
      assert (Hm : (fold_left Qmin l (Qmin x y) <= Qmin x y)%Q) by (apply Hle; now left).
      destruct Hz as [<-|[<-|Hz]].
      * eapply Qle_trans; [exact Hm|apply Q.le_min_l].
      * eapply Qle_trans; [exact Hm|apply Q.le_min_r].
      * apply Hle. now right.
Qed.

Lemma fold_Qmax_is_max (l : list Q) (x : Q) : is_max (fold_left Qmax l x) (x :: l).
Proof.
  revert x. induction l as [|y l IH]; intros x; simpl.
  - split; [now left|]. intros z [<-|[]]. apply Qle_refl.
  - destruct (IH (Qmax x y)) as [Hin Hle]. split.
    + destruct Hin as [Hin|Hin]; [|now right; right].
      rewrite <- Hin. destruct (Qmax_cases x y) as [->| ->]; [now left|now right; left].
    + intros z Hz.
      assert (Hm : (Qmax x y <= fold_left Qmax l (Qmax x y))%Q) by (apply Hle; now left).
      destruct Hz as [<-|[<-|Hz]].
      * eapply Qle_trans; [apply Q.le_max_l|exact Hm].
      * eapply Qle_trans; [apply Q.le_max_r|exact Hm].
      * apply Hle. now right.
Qed.

Lemma norm_index_in_range (i : Z) (n : nat) :
  0 <= i < Z.of_nat n -> norm_index i n = Return (Z.to_nat i).
Proof.
  intros [H0 H1]. unfold norm_index.
  destruct (Z.leb_spec 0 i); [|lia]. destruct (Z.ltb_spec i (Z.of_nat n)); [|lia].
  reflexivity.
Qed.

Lemma clip_range (a n : Z) : 1 <= n -> 0 <= clip a 0 (n - 1) < n.
Proof. unfold clip. lia. Qed.

Lemma zeros_shape (rows cols : Z) :
  0 <= rows -> 0 <= cols ->
  exists z, zeros rows cols = Return z
            /\ has_shape z (Z.to_nat rows) (Z.to_nat cols)
            /\ Forall (Forall (eq 0)) z.
Proof.
  intros Hr Hc. unfold zeros.
  destruct (Z.ltb_spec rows 0); [lia|]. destruct (Z.ltb_spec cols 0); [lia|]. simpl.
  eexists; split; [reflexivity|]. split; [split|].
  - apply length_replicate.
  - apply Forall_replicate, length_replicate.
  - apply Forall_replicate, Forall_replicate. reflexivity.
Qed.

End NumpyFacts.

(** ** [np.add.at] counts index pairs *)

Section AddAt.

Lemma hits_cons (c : Z * Z) (cells : list (Z * Z)) (i j : nat) :
  hits (c :: cells) i j = hits [c] i j + hits cells i j.
Proof.
  unfold hits. simpl.
  destruct ((fst c =? Z.of_nat i) && (snd c =? Z.of_nat j)); simpl; lia.
Qed.

Lemma hits_one (c : Z * Z) (i j : nat) :
  hits [c] i j = if (fst c =? Z.of_nat i) && (snd c =? Z.of_nat j) then 1 else 0.
Proof.
  unfold hits. simpl.
  destruct ((fst c =? Z.of_nat i) && (snd c =? Z.of_nat j)); reflexivity.
Qed.

Lemma add_at1_in_range (g : list (list Z)) (rows cols : nat) (c : Z * Z) :
  has_shape g rows cols ->
  0 <= fst c < Z.of_nat rows -> 0 <= snd c < Z.of_nat cols ->
  exists g', add_at1 g c = Return g'
    /\ has_shape g' rows cols
    /\ forall i j v, entry g i j = Some v -> entry g' i j = Some (v + hits [c] i j).
Proof.
  intros [Hlen Hrows] H0 H1. unfold add_at1.
  rewrite norm_index_in_range by lia. simpl.
  destruct (g !! Z.to_nat (fst c)) as [row|] eqn:Hrow.
  2:{ apply lookup_ge_None in Hrow. lia. }
  assert (Hlr : length row = cols).
  { rewrite Forall_forall in Hrows. apply Hrows. eapply list_elem_of_lookup_2, Hrow. }
  rewrite norm_index_in_range by lia. simpl.
  destruct (row !! Z.to_nat (snd c)) as [v0|] eqn:Hv0.
  2:{ apply lookup_ge_None in Hv0. lia. }
  eexists. split; [reflexivity|]. split.
  - split; [now rewrite length_insert|].
    apply Forall_insert; [assumption|]. now rewrite length_insert.
  - intros i j v Hv. unfold entry in *. rewrite hits_one.
    destruct (decide (Z.to_nat (fst c) = i)) as [<-|Hi].
    + rewrite list_lookup_insert_eq by (apply lookup_lt_Some in Hrow; assumption).
      rewrite Hrow in Hv. simpl in *.
      destruct (decide (Z.to_nat (snd c) = j)) as [<-|Hj].
      * rewrite list_lookup_insert_eq by (apply lookup_lt_Some in Hv0; assumption).
        rewrite Hv0 in Hv. injection Hv as <-.
        rewrite !Z2Nat.id by lia. rewrite !Z.eqb_refl. reflexivity.
      * rewrite list_lookup_insert_ne by assumption. rewrite Hv.
        destruct (Z.eqb_spec (snd c) (Z.of_nat j)); [lia|].
        rewrite andb_false_r. f_equal. lia.
    + rewrite list_lookup_insert_ne by assumption.
      destruct (Z.eqb_spec (fst c) (Z.of_nat i)); [lia|]. simpl.
      rewrite Hv. f_equal. lia.
Qed.

Lemma add_at_counts (cells : list (Z * Z)) :
  forall (g : list (list Z)) (rows cols : nat),
  has_shape g rows cols ->
  Forall (fun c => 0 <= fst c < Z.of_nat rows /\ 0 <= snd c < Z.of_nat cols) cells ->
  exists g', add_at g cells = Return g'
    /\ has_shape g' rows cols
    /\ forall i j v, entry g i j = Some v -> entry g' i j = Some (v + hits cells i j).
Proof.
  induction cells as [|c cells IH]; intros g rows cols Hg Hin.
  - exists g. split; [reflexivity|]. split; [assumption|].
    intros i j v Hv. rewrite Hv. f_equal. unfold hits. simpl. lia.
  - apply Forall_cons in Hin as [[Hc0 Hc1] Hin].
    destruct (add_at1_in_range g rows cols c Hg Hc0 Hc1) as (g1 & E1 & Hg1 & Hent1).
    destruct (IH g1 rows cols Hg1 Hin) as (g2 & E2 & Hg2 & Hent2).
    exists g2. split; [simpl; rewrite E1; exact E2|]. split; [assumption|].
    intros i j v Hv. rewrite hits_cons.
    rewrite (Hent2 i j _ (Hent1 i j v Hv)). f_equal. lia.
Qed.

Lemma entry_zeros (z : list (list Z)) (rows cols i j : nat) :
  has_shape z rows cols -> Forall (Forall (eq 0)) z ->
  (i < rows)%nat -> (j < cols)%nat -> entry z i j = Some 0.
Proof.
  intros [Hlen Hrows] Hz Hi Hj. unfold entry.
  destruct (z !! i) as [row|] eqn:Hrow.
  2:{ apply lookup_ge_None in Hrow. lia. }
  simpl. assert (Hin : row ∈ z) by (eapply list_elem_of_lookup_2, Hrow).
  rewrite Forall_forall in Hrows, Hz. specialize (Hrows _ Hin). specialize (Hz _ Hin).
  destruct (row !! j) as [v|] eqn:Hv.
  2:{ apply lookup_ge_None in Hv. lia. }
  rewrite Forall_forall in Hz. rewrite <- (Hz v); [reflexivity|].
  eapply list_elem_of_lookup_2, Hv.
Qed.

Lemma max2_defined (g : list (list Z)) (rows cols : nat) :
  has_shape g rows cols -> (0 < rows)%nat -> (0 < cols)%nat ->
  exists m, max2 g = Return m.
Proof.
  intros [Hlen Hrows] Hr Hc. unfold max2.
  destruct g as [|row g]; [simpl in Hlen; lia|].
  apply Forall_cons in Hrows as [Hrow _].
  destruct row as [|v row]; [simpl in Hrow; lia|].
  simpl. eexists. reflexivity.
Qed.

End AddAt.

(** ** density_estimation.py: bounds and the count grid *)

Section GridDensity.

Import Density.

Lemma cells_positive (lo hi s : Q) : (0 < s)%Q -> (lo < hi)%Q -> 1 <= Qceiling ((hi - lo) / s).
Proof.
  intros Hs Hlt.
  assert (Hq : (0 < (hi - lo) / s)%Q).
  { apply Qlt_shift_div_l; [assumption|]. rewrite Qmult_0_l.
    unfold Qminus. rewrite <- Qlt_minus_iff. assumption. }
  pose proof (Qle_ceiling ((hi - lo) / s)) as Hc.
  assert (H0 : (inject_Z 0 < inject_Z (Qceiling ((hi - lo) / s)))%Q)
    by (eapply Qlt_le_trans; [exact Hq|exact Hc]).
  rewrite <- Zlt_Qlt in H0. lia.
Qed.

Lemma cells_nonneg (lo hi s : Q) : (0 < s)%Q -> (lo <= hi)%Q -> 0 <= Qceiling ((hi - lo) / s).
Proof.
  intros Hs Hle.
  assert (Hq : (0 <= (hi - lo) / s)%Q).
  { apply Qle_shift_div_l; [assumption|]. rewrite Qmult_0_l.
    unfold Qminus. rewrite <- Qle_minus_iff. assumption. }
  pose proof (Qle_ceiling ((hi - lo) / s)) as Hc.
  assert (H0 : (inject_Z 0 <= inject_Z (Qceiling ((hi - lo) / s)))%Q)
    by (eapply Qle_trans; [exact Hq|exact Hc]).
  rewrite <- Zle_Qle in H0. lia.
Qed.


Lemma astype_int_floor (q : Q) : (0 <= q)%Q -> astype_int q = Qfloor q.
Proof.
  destruct q as [n d]. unfold Qle, astype_int, Qfloor. simpl. intros H.
  apply Z.quot_div_nonneg; lia.
Qed.

(** A coordinate on the upper bound falls into the last cell. *)
Lemma upper_bound_last (lo hi s v : Q) :
  (0 < s)%Q -> (lo < hi)%Q -> (v == hi)%Q ->
  clip (bin_of lo s v) 0 (Qceiling ((hi - lo) / s) - 1) = Qceiling ((hi - lo) / s) - 1.
Proof.
  intros Hs Hlt Hv. pose proof (cells_positive lo hi s Hs Hlt) as Hn.
  unfold bin_of.
  assert (Hq : (0 <= (v - lo) / s)%Q).
  { apply Qle_shift_div_l; [assumption|]. rewrite Qmult_0_l, Hv.
    unfold Qminus. rewrite <- Qle_minus_iff. now apply Qlt_le_weak. }
  rewrite astype_int_floor by assumption.
  assert (Hfl : Qfloor ((v - lo) / s) = Qfloor ((hi - lo) / s)) by (now rewrite Hv).
  rewrite Hfl.
  set (q := ((hi - lo) / s)%Q).
  assert (Hge : Qceiling q - 1 <= Qfloor q).
  { pose proof (Qceiling_lt q) as H1. pose proof (Qlt_floor q) as H2.
    assert (H3 : (inject_Z (Qceiling q - 1) < inject_Z (Qfloor q + 1))%Q)
      by (eapply Qlt_trans; eassumption).
    rewrite <- Zlt_Qlt in H3. lia. }
  unfold clip. lia.
Qed.

(** C8 (amended).  With no explicit bounds, a non-empty point set gets the
    rectangle of its coordinate extrema widened by 100 on every side, and
    an empty point set gets the fixed region (0, 0, 100000, 80000);
    explicit bounds are kept as they are. *)
Theorem init_active_bounds :
  (forall cs : list point, cs <> [] ->
     exists x_lo y_lo x_hi y_hi,
       self_bounds (init cs None)
       = ((x_lo - 100)%Q, (y_lo - 100)%Q, (x_hi + 100)%Q, (y_hi + 100)%Q)
       /\ is_min x_lo (map fst cs) /\ is_min y_lo (map snd cs)
       /\ is_max x_hi (map fst cs) /\ is_max y_hi (map snd cs))
  /\ self_bounds (init [] None) = (0, 0, 100000, 80000)%Q
  /\ (forall (cs : list point) (b : Bounds), self_bounds (init cs (Some b)) = b).
Proof.
  split; [|split].
  - intros [|p rest] Hne; [congruence|]. simpl.
    do 4 eexists. split; [reflexivity|].
    repeat split;
      first [ apply (fold_Qmin_is_min (map fst rest) (fst p))
            | apply (fold_Qmin_is_min (map snd rest) (snd p))
            | apply (fold_Qmax_is_max (map fst rest) (fst p))
            | apply (fold_Qmax_is_max (map snd rest) (snd p)) ].
  - reflexivity.
  - intros cs b. reflexivity.
Qed.

Lemma init_active_bounds_witness :
  exists x_lo y_lo x_hi y_hi,
    self_bounds (init [(3, 4); (1, 9)]%Q None)
    = ((x_lo - 100)%Q, (y_lo - 100)%Q, (x_hi + 100)%Q, (y_hi + 100)%Q)
    /\ is_min x_lo [3; 1]%Q /\ is_min y_lo [4; 9]%Q
    /\ is_max x_hi [3; 1]%Q /\ is_max y_hi [4; 9]%Q.
Proof.
  apply (proj1 init_active_bounds [(3, 4); (1, 9)]%Q). discriminate.
Defined.

(** C8, as stated, at the empty point set: a caller who wants the region
    (0, 0, 1000, 1000) as the fallback has no argument to pass it in, and
    the active bounds are not that region. *)
Lemma init_default_not_caller_supplied :
  ~ (forall caller_default : Bounds,
       bounds_eq (self_bounds (init [] None)) caller_default).
Proof.
  intros H. specialize (H (0, 0, 1000, 1000)%Q). simpl in H.
  destruct H as (_ & _ & H & _). discriminate H.
Qed.

End GridDensity.

Section GridDensityResults.

Import Density.


Lemma norm_index_returns (i : Z) (n k : nat) :
  norm_index i n = Return k -> (0 < n)%nat.
Proof.
  unfold norm_index.
  destruct (Z.leb_spec 0 i); destruct (Z.ltb_spec i (Z.of_nat n)); simpl;
    try (intros _; lia);
    destruct (Z.leb_spec (- Z.of_nat n) i); destruct (Z.ltb_spec i 0); simpl;
    try discriminate; intros _; lia.
Qed.

Lemma zeros_inv (rows cols : Z) (z : list (list Z)) :
  zeros rows cols = Return z ->
  0 <= rows /\ 0 <= cols
  /\ z = replicate (Z.to_nat rows) (replicate (Z.to_nat cols) 0).
Proof.
  unfold zeros. destruct (Z.ltb_spec rows 0); destruct (Z.ltb_spec cols 0); simpl;
    try discriminate.
  intros [= <-]. auto.
Qed.

(** [np.add.at] on an array without cells has nowhere to count. *)
Lemma add_at_returns_cells (rows cols : Z) (z g : list (list Z)) (c : Z * Z)
    (cells : list (Z * Z)) :
  zeros rows cols = Return z -> add_at z (c :: cells) = Return g ->
  1 <= rows /\ 1 <= cols.
Proof.
  intros Hz Hadd. apply zeros_inv in Hz as (Hr & Hc & ->).
  cbn [add_at] in Hadd. unfold add_at1 in Hadd.
  destruct (norm_index (fst c) _) as [i0|] eqn:E0; [|discriminate]. cbn [Py.bind] in Hadd.
  apply norm_index_returns in E0. rewrite length_replicate in E0.
  destruct (replicate (Z.to_nat rows) (replicate (Z.to_nat cols) 0) !! i0)
    as [row|] eqn:Erow; [|discriminate].
  apply lookup_replicate in Erow as [-> _].
  destruct (norm_index (snd c) _) as [i1|] eqn:E1; [|discriminate].
  apply norm_index_returns in E1. rewrite length_replicate in E1. lia.
Qed.

Lemma cells_positive_inv (lo hi s : Q) :
  (0 < s)%Q -> 1 <= Qceiling ((hi - lo) / s) -> (lo < hi)%Q.
Proof.
  intros Hs Hn. pose proof (Qceiling_lt ((hi - lo) / s)) as Hc.
  assert (H0 : (0 < (hi - lo) / s)%Q).
  { eapply Qle_lt_trans; [|exact Hc]. change 0%Q with (inject_Z 0).
    rewrite <- Zle_Qle. lia. }
  assert (H1 : (0 < (hi - lo) / s * s)%Q).
  { apply Qmult_lt_0_compat; assumption. }
  rewrite Qmult_comm, Qmult_div_r in H1.
  - unfold Qminus in H1. rewrite <- Qlt_minus_iff in H1. exact H1.
  - intros E. rewrite E in Hs. now apply Qlt_irrefl in Hs.
Qed.



End GridDensityResults.

(** ** density_estimation.py: smoothing *)

Section SmoothedDensity.

Import Density.

Variable convolve : Q -> list (list Q) -> py (list (list Q)).

Lemma gaussian_filter_sigma0 (input : list (list Q)) :
  gaussian_filter convolve input 0 = Return input.
Proof.
  unfold gaussian_filter. destruct (Qlt_le_dec sigma_cutoff 0) as [H|H]; [|reflexivity].
  exfalso. revert H. unfold sigma_cutoff, Qlt. simpl. lia.
Qed.

Lemma Qmax_inject_Z (a b : Z) : Qmax (inject_Z a) (inject_Z b) = inject_Z (Z.max a b).
Proof.
  unfold Qmax, GenericMinMax.gmax, Qcompare, Z.max. simpl. rewrite !Z.mul_1_r.
  destruct (a ?= b); reflexivity.
Qed.

Lemma fold_Qmax_inject_Z (l : list Z) (a : Z) :
  fold_left Qmax (map inject_Z l) (inject_Z a) = inject_Z (fold_left Z.max l a).
Proof.
  revert a. induction l as [|b l IH]; intros a; simpl; [reflexivity|].
  rewrite Qmax_inject_Z. apply IH.
Qed.

Lemma concat_to_float (g : list (list Z)) : concat (to_float g) = map inject_Z (concat g).
Proof.
  unfold to_float. induction g as [|row g IH]; simpl; [reflexivity|].
  rewrite IH, map_app. reflexivity.
Qed.

Lemma qmax2_to_float (g : list (list Z)) (m : Z) :
  max2 g = Return m -> qmax2 (to_float g) = Return (inject_Z m).
Proof.
  unfold max2, qmax2, amax. rewrite concat_to_float.
  destruct (concat g) as [|v rest]; [discriminate|]. simpl.
  intros [= <-]. rewrite fold_Qmax_inject_Z. reflexivity.
Qed.

Lemma grid_eq_refl (a : list (list Q)) : grid_eq a a.
Proof.
  unfold grid_eq. induction a as [|row a IH]; constructor; [|assumption].
  induction row; constructor; [reflexivity|assumption].
Qed.

Lemma rescale_by_one (g : list (list Z)) :
  grid_eq (map (map (fun v => v / inject_Z 1)%Q) (to_float g)) (to_float g).
Proof.
  unfold grid_eq, to_float. induction g as [|row g IH]; simpl; constructor; [|assumption].
  induction row as [|v row IHr]; simpl; constructor; [|assumption].
  unfold Qdiv. change (/ inject_Z 1)%Q with 1%Q. apply Qmult_1_r.
Qed.

(** C4 (amended).  With sigma = 0 the Gaussian filter leaves the count
    grid as it is, and the rescaling to maximum 1 still applies: the
    smoothed grid is the count grid divided by its largest count m when
    m > 0.  It equals the count grid when m is 0 or 1. *)
Theorem smoothed_sigma0_rescaled (self : DensityEstimator) (s : Q)
    (gr : GridResult) (m : Z) :
  compute_grid_density self s None = Return gr ->
  max2 (grid gr) = Return m ->
  exists r, compute_smoothed_density convolve self s 0 = Return r
    /\ grid_result r = gr /\ (sigma r == 0)%Q
    /\ (0 < m ->
        smoothed_grid r = map (map (fun v => v / inject_Z m)%Q) (to_float (grid gr)))
    /\ (m <= 1 -> grid_eq (smoothed_grid r) (to_float (grid gr))).
Proof.
  intros Hgr Hm. unfold compute_smoothed_density.
  rewrite Hgr. cbn [Py.bind]. rewrite gaussian_filter_sigma0. cbn [Py.bind].
  rewrite (qmax2_to_float _ _ Hm). cbn [Py.bind].
  eexists. split; [reflexivity|]. cbn [grid_result sigma smoothed_grid].
  split; [reflexivity|]. split; [reflexivity|].
  destruct (Qlt_le_dec 0 (inject_Z m)) as [Hpos|Hnon].
  - assert (0 < m) by (rewrite Zlt_Qlt; exact Hpos).
    split; [reflexivity|]. intros Hle. assert (m = 1) as -> by lia.
    apply rescale_by_one.
  - assert (m <= 0) by (rewrite Zle_Qle; exact Hnon).
    split; [lia|]. intros _. apply grid_eq_refl.
Qed.

End SmoothedDensity.

Lemma smoothed_sigma0_rescaled_witness :
  exists r,
    Density.compute_smoothed_density (fun _ g => Return g)
      (Density.init [(1, 1); (2, 2); (7, 7)]%Q (Some (0, 0, 10, 10)%Q)) 5 0 = Return r
    /\ Density.smoothed_grid r = [[2 / 2; 0 / 2]; [0 / 2; 1 / 2]]%Q.
Proof.
  destruct (smoothed_sigma0_rescaled (fun _ g => Return g)
              (Density.init [(1, 1); (2, 2); (7, 7)]%Q (Some (0, 0, 10, 10)%Q)) 5
              _ 2 eq_refl eq_refl) as (r & Er & _ & _ & Hpos & _).
  exists r. split; [exact Er|]. rewrite Hpos by lia. reflexivity.
Defined.

(** C4, as stated, where two points share a cell: the count grid is [[2]]
    and the grid smoothed with sigma = 0 is [[1]]. *)
Lemma smoothed_sigma0_not_count_grid :
  ~ (forall (convolve : Q -> list (list Q) -> py (list (list Q)))
            (self : Density.DensityEstimator) (s : Q) (r : Density.SmoothedResult),
       Density.compute_smoothed_density convolve self s 0 = Return r ->
       grid_eq (Density.smoothed_grid r)
               (Density.to_float (Density.grid (Density.grid_result r)))).
Proof.
  intros H.
  specialize (H (fun _ g => Return g)
                (Density.init [(1, 1); (2, 2)]%Q (Some (0, 0, 10, 10)%Q)) 10%Q _ eq_refl).
  vm_compute in H. inversion H as [|? ? ? ? Hrow _]; subst.
  inversion Hrow as [|? ? ? ? Hv _]; subst. discriminate Hv.
Qed.

(** ** density_estimation.py: kernel density and the random generator *)

Section KdeGenerator.

Import Density.

Variable G : Type.
Variable choice : G -> nat -> nat -> list nat * G.
Variable gaussian_kde : list point -> option Q -> list point -> py (list Q).

Let kde := compute_kde G choice gaussian_kde.

Lemma compute_kde_small (self : DensityEstimator) (res : Z) (bw : option Q) (g : G) :
  (length (centroids self) <= kde_cap)%nat ->
  kde self res bw g = (kde_outcome gaussian_kde self res bw (Return (centroids self)), g).
Proof.
  intros Hle. unfold kde, compute_kde, kde_outcome, kde_try.
  destruct (Nat.ltb (length (centroids self)) 10); [reflexivity|].
  destruct (self_bounds self) as [[[x_min y_min] x_max] y_max].
  destruct (linspace x_min x_max res) as [xg|e]; [|reflexivity].
  destruct (linspace y_min y_max res) as [yg|e]; [|reflexivity].
  destruct (Nat.ltb_spec kde_cap (length (centroids self))); [lia|].
  destruct (kde_fit _ _ _ _ _); reflexivity.
Qed.

Lemma compute_kde_large (self : DensityEstimator) (res : Z) (bw : option Q) (g : G) :
  (kde_cap < length (centroids self))%nat ->
  fst (kde self res bw g)
  = kde_outcome gaussian_kde self res bw
      (take_indices (centroids self) (fst (choice g (length (centroids self)) kde_cap))).
Proof.
  intros Hlt. unfold kde, compute_kde, kde_outcome, kde_try.
  destruct (Nat.ltb (length (centroids self)) 10); [reflexivity|].
  destruct (self_bounds self) as [[[x_min y_min] x_max] y_max].
  destruct (linspace x_min x_max res) as [xg|e]; [|reflexivity].
  destruct (linspace y_min y_max res) as [yg|e]; [|reflexivity].
  destruct (Nat.ltb_spec kde_cap (length (centroids self))); [|lia].
  destruct (choice g (length (centroids self)) kde_cap) as [idx g']. simpl.
  destruct (kde_fit _ _ _ _ _); reflexivity.
Qed.

(** C1 (amended).  [compute_kde] takes no seed.  For a point set of at
    most 50,000 points it never consults the random generator: its result
    is the same in every generator state, and the state is left as it was.
    For a larger point set the subsample is drawn from the process-wide
    generator, and the result depends on the generator state through the
    drawn indices only: two calls that draw the same indices give the same
    result. *)
Theorem kde_reproducible_up_to_generator (self : DensityEstimator) (res : Z)
    (bw : option Q) :
  ((length (centroids self) <= kde_cap)%nat ->
     forall g1 g2 : G,
       fst (kde self res bw g1) = fst (kde self res bw g2)
       /\ snd (kde self res bw g1) = g1)
  /\ ((kde_cap < length (centroids self))%nat ->
        forall g1 g2 : G,
          fst (choice g1 (length (centroids self)) kde_cap)
          = fst (choice g2 (length (centroids self)) kde_cap) ->
          fst (kde self res bw g1) = fst (kde self res bw g2)).
Proof.
  split.
  - intros Hle g1 g2. rewrite !compute_kde_small by assumption. split; reflexivity.
  - intros Hlt g1 g2 Hsame. rewrite !compute_kde_large by assumption.
    rewrite Hsame. reflexivity.
Qed.

End KdeGenerator.

Lemma kde_reproducible_up_to_generator_witness :
  let self := Density.init (replicate 12 (1, 2)%Q) None in
  fst (Density.compute_kde nat Toy.choice Toy.box_kde self 2 None 0%nat)
  = fst (Density.compute_kde nat Toy.choice Toy.box_kde self 2 None 7%nat).
Proof.
  intros self.
  apply (proj1 (kde_reproducible_up_to_generator nat Toy.choice Toy.box_kde self 2 None)).
  change (12 <= Density.kde_cap)%nat. unfold Density.kde_cap. lia.
Defined.

Lemma take_indices_seq (cs : list point) (k a : nat) :
  (a + k <= length cs)%nat ->
  Density.take_indices cs (seq a k) = Return (take k (drop a cs)).
Proof.
  revert a. induction k as [|k IH]; intros a Hle; simpl.
  - reflexivity.
  - destruct (cs !! a) as [p|] eqn:Hp.
    2:{ apply lookup_ge_None in Hp. lia. }
    rewrite IH by lia. simpl. rewrite (drop_S _ _ _ Hp). reflexivity.
Qed.

Lemma crowd_length : length Toy.crowd = S Density.kde_cap.
Proof.
  unfold Toy.crowd. cbn [length]. rewrite length_replicate.
  unfold Density.kde_cap. lia.
Qed.

Lemma toy_kde_crowded (g : nat) :
  fst (Density.compute_kde nat Toy.choice Toy.box_kde Toy.crowded 2 None g)
  = kde_outcome Toy.box_kde Toy.crowded 2 None
      (Return (take Density.kde_cap (drop (if Nat.even g then 0 else 1)%nat Toy.crowd))).
Proof.
  rewrite compute_kde_large.
  2:{ change (Density.centroids Toy.crowded) with Toy.crowd. rewrite crowd_length. lia. }
  change (Density.centroids Toy.crowded) with Toy.crowd.
  f_equal. unfold Toy.choice. cbn [fst].
  destruct (Nat.even g); apply take_indices_seq; rewrite crowd_length; lia.
Qed.

Lemma toy_kde_state (g : nat) :
  snd (Density.compute_kde nat Toy.choice Toy.box_kde Toy.crowded 2 None g) = S g.
Proof.
  unfold Density.compute_kde, Density.kde_try.
  change (Density.centroids Toy.crowded) with Toy.crowd. rewrite crowd_length.
  destruct (Nat.ltb_spec (S Density.kde_cap) 10) as [H|_];
    [unfold Density.kde_cap in H; lia|].
  change (Density.self_bounds Toy.crowded) with (0, 0, 10, 10)%Q. cbv beta iota.
  destruct (Density.linspace 0 10 2) as [xg|e] eqn:E; [|vm_compute in E; discriminate E].
  destruct (Nat.ltb_spec Density.kde_cap (S Density.kde_cap)); [|lia].
  unfold Toy.choice.
  destruct (Density.kde_fit _ _ _ _ _); reflexivity.
Qed.

(** C1, as stated, on 50,001 points: two calls of [compute_kde] with the
    same point set, bounds, resolution and bandwidth, one after the other
    in the same process, return different density grids, because the
    second call finds the generator where the first one left it. *)
Lemma kde_twice_differs :
  ~ kde_same (fst (Toy.twice Toy.crowded 2 None 0)) (snd (Toy.twice Toy.crowded 2 None 0)).
Proof.
  unfold Toy.twice.
  pose proof (toy_kde_crowded 0) as H0. pose proof (toy_kde_state 0) as S0.
  destruct (Density.compute_kde nat Toy.choice Toy.box_kde Toy.crowded 2 None 0%nat)
    as [r1 g1].
  cbn [fst snd] in H0, S0. subst g1.
  pose proof (toy_kde_crowded 1) as H1.
  destruct (Density.compute_kde nat Toy.choice Toy.box_kde Toy.crowded 2 None 1%nat)
    as [r2 g2].
  cbn [fst snd] in *. subst r1 r2.
  vm_compute. intros H. inversion H as [|? ? ? ? Hrow _]; subst.
  inversion Hrow as [|? ? ? ? Hv _]; subst. discriminate Hv.
Qed.

(** ** spatial_statistics.py: distances and the pair query *)

Section Distances.

Import Stats.

Lemma Qsquare_nonneg (a : Q) : (0 <= a * a)%Q.
Proof. destruct a as [n d]. unfold Qle, Qmult. simpl. nia. Qed.

Lemma sqdist_nonneg (p q : point) : (0 <= sqdist p q)%Q.
Proof.
  unfold sqdist. change 0%Q with (0 + 0)%Q.
  apply Qplus_le_compat; apply Qsquare_nonneg.
Qed.

Lemma distance_nonneg (p q : point) : (0 <= distance p q)%R.
Proof. apply sqrt_pos. Qed.

Lemma Q2R_zero : Q2R 0 = 0%R.
Proof. unfold Q2R. simpl. lra. Qed.

Lemma Q2R_nonneg (q : Q) : (0 <= q)%Q -> (0 <= Q2R q)%R.
Proof. intros H. rewrite <- Q2R_zero. now apply Qle_Rle. Qed.


(** The test of the tree queries decides [distance <= |r|]. *)
Lemma kd_within_distance (r : Q) (p q : point) :
  kd_within r p q = true <-> (distance p q <= Rabs (Q2R r))%R.
Proof.
  unfold kd_within, distance. rewrite Qle_bool_iff.
  pose proof (sqdist_nonneg p q) as Hsq. apply Q2R_nonneg in Hsq.
  assert (Hsqr : (Rabs (Q2R r) * Rabs (Q2R r) = Q2R (r * r))%R).
  { rewrite Q2R_mult, <- Rabs_mult. apply Rabs_pos_eq.
    destruct (Rle_dec 0 (Q2R r)); nra. }
  split.
  - intros Hle. apply Qle_Rle in Hle. rewrite <- Hsqr in Hle.
    rewrite <- (sqrt_square (Rabs (Q2R r))) by apply Rabs_pos.
    apply sqrt_le_1_alt. assumption.
  - intros Hle. apply Rle_Qle. rewrite <- Hsqr.
    rewrite <- (sqrt_sqrt (Q2R (sqdist p q))) by assumption.
    apply Rmult_le_compat; try apply sqrt_pos; assumption.
Qed.

Lemma pair_within_close (r : Q) (pts : list point) (i j : nat) :
  pair_within r pts (i, j) = true <-> close pts r i j.
Proof.
  unfold pair_within, close. simpl. split.
  - destruct (pts !! i) as [p|]; [|discriminate].
    destruct (pts !! j) as [q|]; [|discriminate].
    intros H. exists p, q. rewrite <- kd_within_distance. auto.
  - intros (p & q & -> & -> & H). now apply kd_within_distance.
Qed.

Lemma in_index_pairs (n i j : nat) :
  In (i, j) (index_pairs n) <-> (i < j < n)%nat.
Proof.
  unfold index_pairs. rewrite in_concat. split.
  - intros (l & Hl & Hin). apply in_map_iff in Hl as (i' & <- & Hi').
    apply in_map_iff in Hin as (j' & [= <- <-] & Hj').
    apply in_seq in Hi'. apply in_seq in Hj'. lia.
  - intros H. exists (map (fun j => (i, j)) (seq (S i) (n - S i))). split.
    + apply in_map_iff. exists i. split; [reflexivity|]. apply in_seq. lia.
    + apply in_map_iff. exists j. split; [reflexivity|]. apply in_seq. lia.
Qed.

Lemma NoDup_index_pairs (n : nat) : List.NoDup (index_pairs n).
Proof.
  unfold index_pairs.
  assert (H : forall a len, List.NoDup
            (concat (map (fun i => map (fun j => (i, j)) (seq (S i) (n - S i))) (seq a len)))).
  { intros a len. revert a. induction len as [|len IH]; intros a; simpl.
    - constructor.
    - apply List.NoDup_app.
      + apply Finite.Injective_map_NoDup.
        * intros x y [= ->]. reflexivity.
        * apply List.seq_NoDup.
      + apply IH.
      + intros [i j] Hin Hin'.
        apply in_map_iff in Hin as (j' & [= <- <-] & _).
        apply in_concat in Hin' as (l & Hl & Hin').
        apply in_map_iff in Hl as (i' & <- & Hi').
        apply in_map_iff in Hin' as (j'' & [= -> <-] & _).
        apply in_seq in Hi'. lia. }
  apply H.
Qed.

(** [query_pairs] lists every unordered pair at distance at most r once,
    smaller index first. *)
Lemma query_pairs_spec (t : KDTree) (r : Q) :
  List.NoDup (query_pairs t r)
  /\ forall i j, In (i, j) (query_pairs t r) <-> (i < j)%nat /\ close (data t) r i j.
Proof.
  unfold query_pairs. split.
  - apply List.NoDup_filter, NoDup_index_pairs.
  - intros i j. rewrite filter_In, in_index_pairs, pair_within_close. split.
    + intros [[Hij _] Hc]. auto.
    + intros [Hij Hc]. split; [|assumption]. split; [assumption|].
      destruct Hc as (p & q & _ & Hq & _). eapply lookup_lt_Some, Hq.
Qed.

End Distances.

(** ** spatial_statistics.py: Ripley's K *)

Section Ripley.

Import Stats.

Lemma init_tree_nonempty (p : point) (rest : list point) (ls : option (list string)) :
  tree (init (p :: rest) ls) = Some (mkKDTree (p :: rest)).
Proof. reflexivity. Qed.

Lemma area_nonzero (area : Q) : ~ (area == 0)%Q -> Qeq_bool area 0 = false.
Proof.
  intros H. destruct (Qeq_bool area 0) eqn:E; [|reflexivity].
  apply Qeq_bool_iff in E. contradiction.
Qed.

Lemma l_at_defined (k r : Q) :
  (0 <= k)%Q -> l_at k r = Some (sqrt (Q2R k / PI) - Q2R r)%R.
Proof.
  intros Hk. unfold l_at.
  destruct (Rle_dec 0 (Q2R k / PI)) as [_|Hn]; [reflexivity|].
  exfalso. apply Hn. apply Q2R_nonneg in Hk.
  apply Rmult_le_pos; [assumption|]. left. apply Rinv_0_lt_compat, PI_RGT_0.
Qed.

Lemma exceeds_iff (k : Q) (csr : R) : exceeds k csr = true <-> (Q2R k > csr)%R.
Proof.
  unfold exceeds. destruct (Rlt_dec csr (Q2R k)); split; intros H;
    first [assumption | reflexivity | discriminate | contradiction].
Qed.

Lemma csr_nonneg (r : Q) : (0 <= csr_at r)%R.
Proof.
  unfold csr_at. apply Rmult_le_pos; [left; apply PI_RGT_0|].
  apply Rle_0_sqr.
Qed.

Lemma k_at_nonneg (t : KDTree) (n : nat) (area r : Q) :
  (0 <= area)%Q -> (0 <= k_at t n area r)%Q.
Proof.
  intros Ha. unfold k_at. destruct (Nat.ltb_spec 1 n) as [Hn|Hn]; [|apply Qle_refl].
  apply Qle_shift_div_l.
  - change 0%Q with (inject_Z 0). rewrite <- Zlt_Qlt. nia.
  - rewrite Qmult_0_l. apply Qmult_le_0_compat; [assumption|].
    change 0%Q with (inject_Z 0). rewrite <- Zle_Qle. lia.
Qed.

(** C2 (amended).  On an empty point set [compute_ripleys_k] returns its
    error result.  On a single point (and a non-zero area) it returns
    curves: K(r) = 0, L(r) = -r and clustered = false at every radius. *)
Theorem ripleys_k_small_point_sets :
  (forall ls rs area, compute_ripleys_k (init [] ls) rs area = Return RipleyError)
  /\ (forall p ls rs area, ~ (area == 0)%Q ->
        exists c, compute_ripleys_k (init [p] ls) rs area = Return (RipleyOk c)
          /\ radii c = rs
          /\ k_observed c = map (fun _ => 0%Q) rs
          /\ l_function c = map (fun r => Some (- Q2R r)%R) rs
          /\ k_expected_csr c = map csr_at rs
          /\ is_clustered c = map (fun _ => false) rs).
Proof.
  split; [reflexivity|].
  intros p ls rs area Ha. unfold compute_ripleys_k.
  rewrite init_tree_nonempty, (area_nonzero _ Ha).
  eexists. split; [reflexivity|]. cbn [radii k_observed l_function k_expected_csr is_clustered].
  split; [reflexivity|].
  assert (Hk : forall r, k_at (mkKDTree [p]) (length (centroids (init [p] ls))) area r = 0%Q)
    by reflexivity.
  split; [|split; [|split]].
  - apply map_ext. exact Hk.
  - apply map_ext. intros r. rewrite Hk, l_at_defined by apply Qle_refl.
    f_equal. rewrite Q2R_zero. unfold Rdiv. rewrite Rmult_0_l, sqrt_0. lra.
  - reflexivity.
  - induction rs as [|r rs IH]; [reflexivity|].
    cbn [map zip zip_with]. rewrite Hk. f_equal; [|exact IH].
    cbn [fst snd]. destruct (exceeds 0 (csr_at r)) eqn:E; [|reflexivity].
    apply exceeds_iff in E. rewrite Q2R_zero in E. pose proof (csr_nonneg r). lra.
Qed.

Lemma ripleys_k_small_point_sets_witness :
  exists c, compute_ripleys_k (init [(3, 4)%Q] None) [1; 2]%Q 100 = Return (RipleyOk c)
    /\ k_observed c = [0; 0]%Q.
Proof.
  destruct (proj2 ripleys_k_small_point_sets (3, 4)%Q None [1; 2]%Q 100%Q)
    as (c & Ec & _ & Hk & _); [discriminate|].
  exists c. split; [exact Ec|exact Hk].
Defined.

(** C2, as stated, at N = 1: the point set [(0, 0)] with radius 1 and
    area 1 does not get the error result but numeric curves, K = [0]. *)
Lemma ripleys_k_single_point_is_numeric :
  exists c, compute_ripleys_k (init [(0, 0)%Q] None) [1%Q] 1 = Return (RipleyOk c)
    /\ k_observed c = [0%Q]
    /\ compute_ripleys_k (init [(0, 0)%Q] None) [1%Q] 1 <> Return RipleyError.
Proof.
  eexists. split; [reflexivity|]. split; [reflexivity|]. discriminate.
Qed.

End Ripley.

(** ** Binary64: values and comparisons *)

Section Binary64Facts.

Import PrimFloat.

(** A double above zero is not zero. *)
Lemma positive_nonzero (x : float) : (0 <? x)%float = true -> (x =? 0)%float = false.
Proof.
  rewrite FloatAxioms.ltb_spec, FloatAxioms.eqb_spec.
  change (FloatOps.Prim2SF 0%float) with (SpecFloat.S754_zero false).
  destruct (FloatOps.Prim2SF x) as [sg|sg| |sg m e];
    try destruct sg; simpl; try discriminate; reflexivity.
Qed.

Lemma inject_Z_pred (n : Z) : (inject_Z (n - 1) == inject_Z n - 1)%Q.
Proof.
  unfold Z.sub. rewrite inject_Z_plus. reflexivity.
Qed.

(** [int(np.ceil(f))] returns exactly the ceiling of a finite [f]. *)
Lemma ceil_int_spec (f : float) (n : Z) :
  Float64.ceil_int f = Return n <-> Props64.ceiling_of f n.
Proof.
  unfold Float64.ceil_int, Props64.ceiling_of, Np.ceil_int. split.
  - destruct (Float64.value f) as [q|]; [|destruct (is_nan f); discriminate].
    intros [= <-]. exists q. split; [reflexivity|]. split.
    + rewrite <- inject_Z_pred. apply Qceiling_lt.
    + apply Qle_ceiling.
  - intros (q & -> & Hlo & Hhi). f_equal.
    assert (H1 : Qceiling q <= n).
    { apply Qceiling_resp_le in Hhi. rewrite Qceiling_Z in Hhi. exact Hhi. }
    assert (H2 : n - 1 < Qceiling q).
    { rewrite Zlt_Qlt. rewrite inject_Z_pred.
      eapply Qlt_le_trans; [exact Hlo|apply Qle_ceiling]. }
    lia.
Qed.

Lemma trunc_below_one (q : Q) : (q < 1)%Q -> Np.astype_int q <= 0.
Proof.
  intros Hq. destruct (Qlt_le_dec q 0) as [Hneg|Hpos].
  - unfold Np.astype_int. destruct q as [a d]. unfold Qlt in Hneg. simpl in *.
    apply Z.quot_le_upper_bound; lia.
  - rewrite astype_int_floor by assumption.
    pose proof (Qfloor_le q) as Hfl.
    assert (H : (inject_Z (Qfloor q) < inject_Z 1)%Q)
      by (eapply Qle_lt_trans; [exact Hfl|exact Hq]).
    rewrite <- Zlt_Qlt in H. lia.
Qed.

Lemma trunc_from_one (q : Q) :
  (1 <= q)%Q ->
  1 <= Np.astype_int q
  /\ (inject_Z (Np.astype_int q) <= q)%Q /\ (q < inject_Z (Np.astype_int q) + 1)%Q.
Proof.
  intros Hq.
  assert (H0 : (0 <= q)%Q) by (eapply Qle_trans; [|exact Hq]; discriminate).
  rewrite astype_int_floor by assumption. split; [|split].
  - change 1%Q with (inject_Z 1) in Hq. apply Qfloor_resp_le in Hq.
    rewrite Qfloor_Z in Hq. exact Hq.
  - apply Qfloor_le.
  - pose proof (Qlt_floor q) as H. rewrite inject_Z_plus in H. exact H.
Qed.

(** The clipped cast is the clamped bin. *)
Lemma clamped_bin_spec (f : float) (n : Z) :
  1 <= n -> n <= 2 ^ 63 ->
  Props64.clamped_bin f n (clip (Float64.astype_int f) 0 (n - 1)).
Proof.
  intros Hn Hmax. unfold Props64.clamped_bin.
  split; [pose proof (clip_range (Float64.astype_int f) n Hn); lia|].
  intros q Hv. unfold Float64.astype_int, Float64.int64_min. rewrite Hv.
  split; [|split].
  - intros Hq. pose proof (trunc_below_one q Hq) as Ht.
    destruct ((- 2 ^ 63 <=? Np.astype_int q) && (Np.astype_int q <? 2 ^ 63));
      unfold clip; lia.
  - intros H1 Hlt. destruct (trunc_from_one q H1) as (Ht1 & Hlo & Hhi).
    assert (Htn : Np.astype_int q < n).
    { rewrite Zlt_Qlt. eapply Qle_lt_trans; [exact Hlo|exact Hlt]. }
    destruct (Z.leb_spec (- 2 ^ 63) (Np.astype_int q)); [|lia].
    destruct (Z.ltb_spec (Np.astype_int q) (2 ^ 63)); [|lia]. cbn [andb].
    replace (clip (Np.astype_int q) 0 (n - 1)) with (Np.astype_int q)
      by (unfold clip; lia).
    split; assumption.
  - intros Hge Hlt.
    assert (H1 : (1 <= q)%Q).
    { eapply Qle_trans; [|exact Hge]. change 1%Q with (inject_Z 1).
      rewrite <- Zle_Qle. exact Hn. }
    destruct (trunc_from_one q H1) as (Ht1 & Hlo & Hhi).
    assert (Htn : n <= Np.astype_int q).
    { assert (H : (inject_Z n < inject_Z (Np.astype_int q) + 1)%Q)
        by (eapply Qle_lt_trans; [exact Hge|exact Hhi]).
      change 1%Q with (inject_Z 1) in H.
      rewrite <- inject_Z_plus, <- Zlt_Qlt in H. lia. }
    assert (Htm : Np.astype_int q < 2 ^ 63).
    { rewrite Zlt_Qlt. eapply Qle_lt_trans; [exact Hlo|exact Hlt]. }
    destruct (Z.leb_spec (- 2 ^ 63) (Np.astype_int q)); [|lia].
    destruct (Z.ltb_spec (Np.astype_int q) (2 ^ 63)); [|lia]. cbn [andb].
    unfold clip. lia.
Qed.

(** The bin of a quotient that is also the quotient of the extent. *)
Lemma clamped_bin_last (f : float) (n j : Z) :
  n < 2 ^ 63 -> Props64.ceiling_of f n -> Props64.clamped_bin f n j -> j = n - 1.
Proof.
  intros Hmax (q & Hv & Hlo & Hhi) [Hrange Hbin].
  destruct (Hbin q Hv) as (B0 & B1 & B2).
  destruct (Qlt_le_dec q 1) as [Hq1|Hq1].
  - rewrite (B0 Hq1). 
    assert (H : (inject_Z (n - 1) < inject_Z 1)%Q).
    { rewrite inject_Z_pred. eapply Qlt_trans; [exact Hlo|exact Hq1]. }
    rewrite <- Zlt_Qlt in H. lia.
  - destruct (Qlt_le_dec q (inject_Z n)) as [Hqn|Hqn].
    + destruct (B1 Hq1 Hqn) as [_ Hj].
      assert (H : (inject_Z (n - 1) < inject_Z (j + 1))%Q).
      { rewrite inject_Z_pred, inject_Z_plus. eapply Qlt_trans; [exact Hlo|exact Hj]. }
      rewrite <- Zlt_Qlt in H. lia.
    + apply B2; [assumption|]. eapply Qle_lt_trans; [exact Hhi|].
      rewrite <- Zlt_Qlt. exact Hmax.
Qed.

Lemma float_zeros_inv (rows cols : Z) (z : list (list Z)) :
  Float64.zeros rows cols = Return z ->
  rows < 2 ^ 63 /\ cols < 2 ^ 63 /\ zeros rows cols = Return z.
Proof.
  unfold Float64.zeros.
  destruct (Z.leb_spec (2 ^ 63) rows); [discriminate|].
  destruct (Z.leb_spec (2 ^ 63) cols); [discriminate|].
  destruct (Z.leb_spec (2 ^ 63) (rows * cols * 8)); [discriminate|].
  cbn [orb]. auto.
Qed.

Lemma float_zeros_small (rows cols : Z) :
  1 <= rows -> 1 <= cols -> rows * cols * 8 < 2 ^ 63 ->
  Float64.zeros rows cols = zeros rows cols.
Proof.
  intros Hr Hc Hsz. unfold Float64.zeros.
  destruct (Z.leb_spec (2 ^ 63) rows); [nia|].
  destruct (Z.leb_spec (2 ^ 63) cols); [nia|].
  destruct (Z.leb_spec (2 ^ 63) (rows * cols * 8)); [lia|]. reflexivity.
Qed.

End Binary64Facts.

(** ** density_estimation.py: the count grid in binary64 *)

Section GridDensityBinary64.

Import PrimFloat Density64.

Lemma extent_cells_inv (numpy : bool) (lo hi s : float) (n : Z) :
  extent_cells numpy lo hi s = Return n -> Props64.ceiling_of ((hi - lo) / s)%float n.
Proof.
  unfold extent_cells. destruct (negb numpy && (s =? 0)%float); [discriminate|].
  apply ceil_int_spec.
Qed.

Lemma extent_cells_returns (numpy : bool) (lo hi s : float) (n : Z) :
  (0 <? s)%float = true -> Props64.ceiling_of ((hi - lo) / s)%float n ->
  extent_cells numpy lo hi s = Return n.
Proof.
  intros Hs Hn. unfold extent_cells. rewrite (positive_nonzero s Hs), andb_false_r.
  now apply ceil_int_spec.
Qed.

(** What a run of [compute_grid_density] without labels goes through. *)
Lemma grid_density_run (self : DensityEstimator) (x_min y_min x_max y_max s : float)
    (r : GridResult) :
  self_bounds self = (x_min, y_min, x_max, y_max) ->
  compute_grid_density self s None = Return r ->
  exists n_y n_x z,
    Props64.ceiling_of ((y_max - y_min) / s)%float n_y
    /\ Props64.ceiling_of ((x_max - x_min) / s)%float n_x
    /\ Float64.zeros n_y n_x = Return z
    /\ match centroids self with
       | [] => grid r = z
       | _ => add_at z (map (cell_of (x_min, y_min, x_max, y_max) s n_y n_x)
                            (centroids self)) = Return (grid r)
       end.
Proof.
  intros Hb. unfold compute_grid_density. rewrite Hb.
  destruct (extent_cells (derived self) x_min x_max s) as [n_x|] eqn:Ex; [|discriminate].
  cbn [Py.bind].
  destruct (extent_cells (derived self) y_min y_max s) as [n_y|] eqn:Ey;
    [|destruct (centroids self); discriminate].
  cbn [Py.bind]. apply extent_cells_inv in Ex, Ey.
  destruct (Float64.zeros n_y n_x) as [z|] eqn:Ez;
    [|destruct (centroids self); discriminate].
  cbn [Py.bind]. intros Hr. exists n_y, n_x, z.
  split; [exact Ey|]. split; [exact Ex|]. split; [exact Ez|]. revert Hr.
  destruct (centroids self) as [|p cs]; [intros [= <-]; reflexivity|].
  match goal with |- context [add_at z ?c] => destruct (add_at z c) as [g|] end;
    [|discriminate].
  cbn [Py.bind]. destruct (max2 g); [|discriminate]. cbn [Py.bind].
  intros [= <-]. reflexivity.
Qed.

(** C7.  For a positive cell size, every count grid the operation returns
    has n_y rows and n_x columns, where n_x and n_y are the ceilings of
    the quotients (x_max - x_min) / s and (y_max - y_min) / s as binary64
    computes them.  Every point has a cell (row, column): the row is the
    integer part of the computed quotient (y - y_min) / s and the column
    that of (x - x_min) / s, each replaced by 0 if it is below the range
    and by n - 1 if it is above, so that both lie in [0, n - 1]; a
    coordinate equal to the upper bound is binned into the last cell.
    Entry (i, j) of the grid is the number of points whose cell is
    (i, j), and for an empty point set the grid is all zero.  A grid is
    returned whenever both ceilings are at least 1 and the grid stays
    below 2^63 bytes.  The single point (5, 5) in (0, 0, 10, 10) with
    cell size 10 gives the 1x1 grid [[1]] with max_count 1 and
    total_count 1. *)
Theorem grid_density_counts (self : DensityEstimator) (x_min y_min x_max y_max s : float) :
  self_bounds self = (x_min, y_min, x_max, y_max) ->
  (0 <? s)%float = true ->
  (forall r, compute_grid_density self s None = Return r ->
     exists (n_y n_x : Z) (cell : point -> Z * Z),
       Props64.ceiling_of ((y_max - y_min) / s)%float n_y
       /\ Props64.ceiling_of ((x_max - x_min) / s)%float n_x
       /\ has_shape (grid r) (Z.to_nat n_y) (Z.to_nat n_x)
       /\ (forall p, In p (centroids self) ->
             Props64.clamped_bin ((snd p - y_min) / s)%float n_y (fst (cell p))
             /\ Props64.clamped_bin ((fst p - x_min) / s)%float n_x (snd (cell p))
             /\ (snd p = y_max -> fst (cell p) = n_y - 1)
             /\ (fst p = x_max -> snd (cell p) = n_x - 1))
       /\ (forall i j, (i < Z.to_nat n_y)%nat -> (j < Z.to_nat n_x)%nat ->
             entry (grid r) i j = Some (hits (map cell (centroids self)) i j))
       /\ (centroids self = [] -> Forall (Forall (eq 0)) (grid r)))
  /\ (forall n_y n_x,
        Props64.ceiling_of ((y_max - y_min) / s)%float n_y ->
        Props64.ceiling_of ((x_max - x_min) / s)%float n_x ->
        1 <= n_y -> 1 <= n_x -> n_y * n_x * 8 < 2 ^ 63 ->
        returns (compute_grid_density self s None))
  /\ compute_grid_density
       (mkDensityEstimator [(5, 5)%float] (0, 0, 10, 10)%float false) 10 None
     = Return (mkGridResult [[1]] 10 (0, 0, 10, 10)%float
                 (Some (1, 1)) (Some 1) (Some 1) None).
Proof.
  intros Hb Hs. split; [|split].
  - intros r Hr.
    destruct (grid_density_run self _ _ _ _ s r Hb Hr) as (n_y & n_x & z & Cy & Cx & Ez & Hgrid).
    apply float_zeros_inv in Ez as (Hmy & Hmx & Ez).
    pose proof (zeros_inv _ _ _ Ez) as (Hny0 & Hnx0 & _).
    destruct (zeros_shape n_y n_x Hny0 Hnx0) as (z' & Ez' & Hz & Hz0).
    rewrite Ez in Ez'. injection Ez' as <-.
    exists n_y, n_x, (cell_of (x_min, y_min, x_max, y_max) s n_y n_x).
    split; [exact Cy|]. split; [exact Cx|].
    destruct (centroids self) as [|p cs] eqn:Hcs.
    + rewrite Hgrid. split; [assumption|]. split; [intros q []|]. split.
      { intros i j Hi Hj. rewrite (entry_zeros z _ _ i j Hz Hz0 Hi Hj). reflexivity. }
      intros _; assumption.
    + cbn [map] in Hgrid.
      destruct (add_at_returns_cells _ _ _ _ _ _ Ez Hgrid) as [Hny Hnx].
      set (cell := cell_of (x_min, y_min, x_max, y_max) s n_y n_x) in *.
      set (cells := map cell (p :: cs)).
      assert (Hin : Forall (fun c => 0 <= fst c < Z.of_nat (Z.to_nat n_y)
                                     /\ 0 <= snd c < Z.of_nat (Z.to_nat n_x)) cells).
      { unfold cells. apply Forall_map, Forall_forall. intros q _.
        rewrite !Z2Nat.id by lia. unfold cell. cbn [cell_of fst snd].
        split; apply clip_range; assumption. }
      destruct (add_at_counts cells z _ _ Hz Hin) as (g & Eg & Hg & Hent).
      change (add_at z cells = Return (grid r)) in Hgrid.
      rewrite Eg in Hgrid. injection Hgrid as <-.
      split; [assumption|]. split.
      2:{ split; [|discriminate]. intros i j Hi Hj.
          rewrite (Hent i j 0 (entry_zeros z _ _ i j Hz Hz0 Hi Hj)). reflexivity. }
      intros q _. unfold cell. cbn [cell_of fst snd].
      pose proof (clamped_bin_spec ((snd q - y_min) / s)%float n_y Hny ltac:(lia)) as By.
      pose proof (clamped_bin_spec ((fst q - x_min) / s)%float n_x Hnx ltac:(lia)) as Bx.
      fold (bin_of y_min s (snd q)) in By. fold (bin_of x_min s (fst q)) in Bx.
      split; [exact By|]. split; [exact Bx|]. split; intros Hq.
      * apply (clamped_bin_last ((snd q - y_min) / s)%float); [lia| |exact By].
        rewrite Hq. exact Cy.
      * apply (clamped_bin_last ((fst q - x_min) / s)%float); [lia| |exact Bx].
        rewrite Hq. exact Cx.
  - intros n_y n_x Cy Cx Hny Hnx Hsz. unfold compute_grid_density. rewrite Hb.
    rewrite (extent_cells_returns _ _ _ _ _ Hs Cx). cbn [Py.bind].
    rewrite (extent_cells_returns _ _ _ _ _ Hs Cy). cbn [Py.bind].
    rewrite (float_zeros_small n_y n_x Hny Hnx Hsz).
    destruct (zeros_shape n_y n_x) as (z & Ez & Hz & Hz0); [lia|lia|].
    rewrite Ez. cbn [Py.bind].
    destruct (centroids self) as [|p cs]; [eexists; reflexivity|].
    set (cells := map (cell_of (x_min, y_min, x_max, y_max) s n_y n_x) (p :: cs)).
    assert (Hin : Forall (fun c => 0 <= fst c < Z.of_nat (Z.to_nat n_y)
                                   /\ 0 <= snd c < Z.of_nat (Z.to_nat n_x)) cells).
    { unfold cells. apply Forall_map, Forall_forall. intros q _.
      rewrite !Z2Nat.id by lia. cbn [cell_of fst snd].
      split; apply clip_range; assumption. }
    destruct (add_at_counts cells z _ _ Hz Hin) as (g & Eg & Hg & _).
    rewrite Eg. cbn [Py.bind].
    destruct (max2_defined g _ _ Hg) as (m & Em); [lia|lia|].
    rewrite Em. cbn [Py.bind]. eexists. reflexivity.
  - vm_compute. reflexivity.
Qed.

(** The quotient 7 / 0.7 is 10 in binary64, although the double nearest
    to 0.7 is below 0.7: the grid has 10 rows and 10 columns.  The point
    (0.5, 0.5) is counted in cell (0, 0) and the point (7, 7), on the
    upper bounds, in the last cell (9, 9). *)
Lemma grid_density_counts_witness :
  exists r,
    compute_grid_density
      (mkDensityEstimator [(0.5, 0.5); (7, 7)]%float
         (0, 0, 7, 7)%float false) 0x1.6666666666666p-1%float None
    = Return r
    /\ has_shape (grid r) 10 10
    /\ entry (grid r) 0 0 = Some 1
    /\ entry (grid r) 9 9 = Some 1.
Proof.
  pose proof (grid_density_counts
                (mkDensityEstimator [(0.5, 0.5); (7, 7)]%float (0, 0, 7, 7)%float false)
                0 0 7 7 0x1.6666666666666p-1%float eq_refl eq_refl)
    as (Hprops & Hret & _).
  assert (C10 : Props64.ceiling_of ((7 - 0) / 0x1.6666666666666p-1)%float 10).
  { eexists. split; [vm_compute; reflexivity|].
    split; vm_compute; first [reflexivity | discriminate]. }
  destruct (Hret 10 10 C10 C10) as [r Er]; [lia|lia|lia|].
  exists r. split; [exact Er|].
  destruct (Hprops r Er) as (n_y & n_x & cell & Cy & Cx & Hshape & _).
  assert (Ey : n_y = 10).
  { destruct Cy as (q & Hq & Hlo & Hhi). vm_compute in Hq. injection Hq as <-.
    unfold Qlt, Qle in Hlo, Hhi. simpl in Hlo, Hhi. lia. }
  assert (Ex : n_x = 10).
  { destruct Cx as (q & Hq & Hlo & Hhi). vm_compute in Hq. injection Hq as <-.
    unfold Qlt, Qle in Hlo, Hhi. simpl in Hlo, Hhi. lia. }
  subst. split; [exact Hshape|].
  vm_compute in Er. injection Er as <-. split; reflexivity.
Defined.

End GridDensityBinary64.

(** ** spatial_statistics.py: Ripley's K in binary64 *)

Section RipleyBinary64.

Import PrimFloat Stats64.

Variable query_pairs : KDTree -> float -> list (nat * nat).


End RipleyBinary64.

Section RipleyBinary64Examples.

Import PrimFloat Stats64.



End RipleyBinary64Examples.

(** ** spatial_statistics.py: operations that raise *)

Section Raising.

Import Stats.

(** C3.  Calls that do not return a result value.  Colocalization on an
    empty point set with a label array dereferences the tree that
    [__init__] left as None and raises AttributeError, for every label
    array and radius.  Hotspot detection on a point set whose bounding box
    has no width (a single point; two points with the same x) makes a grid
    with zero cells along x and raises IndexError in [np.add.at]; the
    density grid does the same on explicit bounds without width. *)
Theorem engine_operations_raise :
  (forall (ls : list string) (radius : Q),
     compute_label_colocalization (init [] (Some ls)) radius = Raise AttributeError)
  /\ compute_hotspot_detection (init [(5, 5)%Q] None) 100 10 = Raise IndexError
  /\ compute_hotspot_detection (init [(5, 0); (5, 300)]%Q None) 100 10 = Raise IndexError
  /\ Density.compute_grid_density
       (Density.init [(0, 5)%Q] (Some (0, 0, 0, 10)%Q)) 1 None = Raise IndexError.
Proof.
  repeat split; reflexivity.
Qed.

End Raising.

(** ** spatial_statistics.py: label colocalization *)

Section Cooccurrence.

Import Stats.

Implicit Types (row : gmap string nat) (c : gmap string (gmap string nat)).


Lemma row_total_insert row (k : string) (v : nat) :
  row !! k = None -> row_total (<[k := v]> row) = (v + row_total row)%nat.
Proof.
  intros Hk. unfold row_total.
  apply map_fold_insert_L; [|assumption].
  intros j1 j2 z1 z2 y _ _ _. lia.
Qed.

Lemma row_total_bump row (k : string) :
  row_total (<[k := S (default 0%nat (row !! k))]> row) = S (row_total row).
Proof.
  destruct (row !! k) as [v|] eqn:Hk; simpl.
  - rewrite <- (insert_delete_eq row k (S v)).
    rewrite row_total_insert by apply lookup_delete_eq.
    rewrite <- (insert_delete_id row k v Hk) at 2.
    rewrite row_total_insert by apply lookup_delete_eq. lia.
  - rewrite row_total_insert by assumption. lia.
Qed.

Lemma row_of_bump c (li lj l : string) :
  row_of (bump li lj c) l
  = if decide (l = li)
    then <[lj := S (default 0%nat (row_of c li !! lj))]> (row_of c li)
    else row_of c l.
Proof.
  unfold row_of, bump. destruct (decide (l = li)) as [->|Hne].
  - rewrite lookup_insert_eq. reflexivity.
  - rewrite lookup_insert_ne by congruence. reflexivity.
Qed.

Lemma total_bump c (li lj l : string) :
  total (bump li lj c) l = if decide (l = li) then S (total c l) else total c l.
Proof.
  unfold total. rewrite row_of_bump. destruct (decide (l = li)) as [->|]; [|reflexivity].
  apply row_total_bump.
Qed.





End Cooccurrence.

(** ** [np.unique]: every value once, in ascending order *)

Section Unique.

Lemma string_lt_compare (s t : string) : string_lt s t <-> String.compare s t = Lt.
Proof.
  unfold string_lt, String.ltb. destruct (String.compare s t); split; congruence.
Qed.

Lemma ascii_compare_refl (a : Ascii.ascii) : Ascii.compare a a = Eq.
Proof. unfold Ascii.compare. apply N.compare_refl. Qed.

Lemma ascii_compare_trans (a b c : Ascii.ascii) :
  Ascii.compare a b = Lt -> Ascii.compare b c = Lt -> Ascii.compare a c = Lt.
Proof.
  unfold Ascii.compare. rewrite !N.compare_lt_iff. apply N.lt_trans.
Qed.

Lemma string_compare_trans (s : string) :
  forall t u, String.compare s t = Lt -> String.compare t u = Lt -> String.compare s u = Lt.
Proof.
  induction s as [|a s IH]; intros [|b t] [|c u]; simpl; try congruence.
  destruct (Ascii.compare a b) eqn:Eab; try discriminate;
    destruct (Ascii.compare b c) eqn:Ebc; try discriminate; intros H1 H2.
  - apply Ascii.compare_eq_iff in Eab, Ebc. subst.
    rewrite ascii_compare_refl. eapply IH; eassumption.
  - apply Ascii.compare_eq_iff in Eab. subst. rewrite Ebc. reflexivity.
  - apply Ascii.compare_eq_iff in Ebc. subst. rewrite Eab. reflexivity.
  - rewrite (ascii_compare_trans _ _ _ Eab Ebc). reflexivity.
Qed.

Lemma string_compare_refl (s : string) : String.compare s s = Eq.
Proof.
  induction s as [|a s IH]; simpl; [reflexivity|]. now rewrite ascii_compare_refl.
Qed.

Lemma string_lt_irrefl (s : string) : ~ string_lt s s.
Proof. rewrite string_lt_compare, string_compare_refl. discriminate. Qed.

Lemma string_lt_trans (s t u : string) : string_lt s t -> string_lt t u -> string_lt s u.
Proof. rewrite !string_lt_compare. apply string_compare_trans. Qed.

Lemma in_insert_unique (s x : string) (l : list string) :
  In x (insert_unique s l) <-> x = s \/ In x l.
Proof.
  induction l as [|t l IH]; simpl.
  - intuition.
  - destruct (String.eqb_spec s t) as [->|Hne]; simpl; [intuition|].
    destruct (String.ltb s t); simpl; [intuition|].
    rewrite IH. intuition.
Qed.

Lemma in_unique (x : string) (l : list string) : In x (unique l) <-> In x l.
Proof.
  unfold unique. induction l as [|s l IH]; simpl; [reflexivity|].
  rewrite in_insert_unique, IH. intuition.
Qed.

Lemma insert_unique_sorted (s : string) (l : list string) :
  StronglySorted string_lt l -> StronglySorted string_lt (insert_unique s l).
Proof.
  induction 1 as [|t l Hl IH Ht]; simpl.
  - repeat constructor.
  - destruct (String.eqb_spec s t) as [->|Hne]; [now constructor|].
    destruct (String.ltb s t) eqn:Hlt.
    + constructor; [now constructor|]. constructor; [exact Hlt|].
      eapply Forall_impl; [exact Ht|]. intros u Hu. eapply string_lt_trans; eassumption.
    + constructor; [assumption|].
      assert (Hts : string_lt t s).
      { rewrite string_lt_compare. rewrite String.compare_antisym.
        unfold String.ltb in Hlt. destruct (String.compare s t) eqn:E; try discriminate.
        - apply String.compare_eq_iff in E. contradiction.
        - reflexivity. }
      rewrite Forall_forall. intros u Hu. apply list_elem_of_In, in_insert_unique in Hu.
      destruct Hu as [->|Hu]; [assumption|].
      rewrite Forall_forall in Ht. apply Ht, list_elem_of_In, Hu.
Qed.

Lemma unique_sorted (l : list string) : StronglySorted string_lt (unique l).
Proof.
  unfold unique. induction l as [|s l IH]; simpl; [constructor|].
  now apply insert_unique_sorted.
Qed.

Lemma unique_NoDup (l : list string) : List.NoDup (unique l).
Proof.
  pose proof (unique_sorted l) as H. induction H as [|t u Hu IH Ht]; constructor; [|assumption].
  intros Hin. rewrite Forall_forall in Ht.
  apply (string_lt_irrefl t), Ht, list_elem_of_In, Hin.
Qed.

End Unique.

(** ** Counting *)

Section Counting.

Lemma count_swap {A B : Type} (f : A -> B -> bool) (ks : list A) (l : list B) :
  fold_right Nat.add 0%nat (map (fun k => length (List.filter (f k) l)) ks)
  = fold_right Nat.add 0%nat (map (fun x => length (List.filter (fun k => f k x) ks)) l).
Proof.
  induction ks as [|k ks IH]; simpl.
  - induction l as [|x l IHl]; simpl; [reflexivity|exact IHl].
  - rewrite IH. clear IH. induction l as [|x l IHl]; simpl; [reflexivity|].
    destruct (f k x); simpl; lia.
Qed.

Lemma sum_of_ones {A : Type} (g : A -> nat) (l : list A) :
  (forall x, In x l -> g x = 1%nat) ->
  fold_right Nat.add 0%nat (map g l) = length l.
Proof.
  induction l as [|x l IH]; intros Hg; [reflexivity|]. simpl.
  rewrite Hg by now left. f_equal. apply IH. intros y Hy. apply Hg. now right.
Qed.

Lemma once_in_unique (u : list string) (x : string) :
  List.NoDup u -> In x u -> length (List.filter (fun l => String.eqb l x) u) = 1%nat.
Proof.
  induction 1 as [|y u Hy Hu IH]; intros Hin; [destruct Hin|]. simpl.
  destruct (String.eqb_spec y x) as [->|Hne].
  - simpl. f_equal. clear IH Hin. induction u as [|z u IHu]; [reflexivity|]. simpl.
    destruct (String.eqb_spec z x) as [->|_].
    + exfalso. apply Hy. now left.
    + apply IHu; [intros H; apply Hy; now right|now inversion Hu].
  - destruct Hin as [->|Hin]; [congruence|]. now apply IH.
Qed.




End Counting.

(** ** The colocalization loops *)

Section ColocalizationLoops.

Import Stats.

Variable ls : list string.

Implicit Types (c : gmap string (gmap string nat)).


Lemma ball_pairs_nil (i : nat) (items : list (nat * list nat)) :
  ball_pairs ((i, []) :: items) = ball_pairs items.
Proof. reflexivity. Qed.










End ColocalizationLoops.

(** ** spatial_statistics.py: the colocalization matrix *)

Section ColocalizationMatrix.

Import Stats.



Lemma ball_lookup (t : KDTree) (r : Q) (i : nat) (ns : list nat) :
  query_ball_tree t r !! i = Some ns ->
  (i < length (data t))%nat /\ forall j, In j ns <-> close (data t) r i j.
Proof.
  unfold query_ball_tree. rewrite list_lookup_fmap.
  destruct (data t !! i) as [p|] eqn:Hp; [|discriminate]. simpl. intros [= <-].
  split; [eapply lookup_lt_Some, Hp|].
  intros j. rewrite filter_In, in_seq. unfold close. split.
  - intros [_ Hw]. destruct (data t !! j) as [q|] eqn:Hq; [|discriminate].
    exists p, q. rewrite <- kd_within_distance. auto.
  - intros (p' & q & Hp' & Hq & Hd). rewrite Hp in Hp'. injection Hp' as <-.
    split; [apply lookup_lt_Some in Hq; lia|].
    rewrite Hq. now apply kd_within_distance.
Qed.







End ColocalizationMatrix.

(** ** spatial_statistics.py: nearest-neighbor distances *)

Section NearestNeighbor.

Import Stats.

#[local] Instance Rle_total : Total Rle.
Proof. intros x y. destruct (Rle_lt_dec x y); [left|right; left]; assumption. Qed.

#[local] Instance Rle_transitive : Transitive Rle.
Proof. intros x y z. apply Rle_trans. Qed.

Lemma rsort_perm (l : list R) : rsort l ≡ₚ l.
Proof. apply merge_sort_Permutation. Qed.

Lemma rsort_sorted (l : list R) : StronglySorted Rle (rsort l).
Proof. apply StronglySorted_merge_sort; apply _. Qed.

Lemma sqdist_self (p q : point) :
  (fst p == fst q)%Q -> (snd p == snd q)%Q -> (sqdist p q == 0)%Q.
Proof. intros Hx Hy. unfold sqdist. rewrite Hx, Hy. ring. Qed.

Lemma distance_coincident (p q : point) :
  (fst p == fst q)%Q -> (snd p == snd q)%Q -> distance p q = 0%R.
Proof.
  intros Hx Hy. unfold distance.
  rewrite (Qeq_eqR _ _ (sqdist_self p q Hx Hy)), Q2R_zero. apply sqrt_0.
Qed.

Lemma distance_self (p : point) : distance p p = 0%R.
Proof. apply distance_coincident; reflexivity. Qed.

(** Entries of a list with one position deleted are the entries at the
    other positions. *)
Lemma elem_of_delete_other (l : list R) (i : nat) (x : R) :
  x ∈ delete i l -> exists j, j <> i /\ l !! j = Some x.
Proof.
  intros Hx. apply list_elem_of_lookup in Hx as [j Hj].
  destruct (Nat.lt_ge_cases j i) as [Hlt|Hge].
  - rewrite list_lookup_delete_lt in Hj by assumption. exists j. split; [lia|assumption].
  - rewrite list_lookup_delete_ge in Hj by assumption. exists (S j). split; [lia|assumption].
Qed.

Lemma elem_of_other_delete (l : list R) (i j : nat) (x : R) :
  j <> i -> l !! j = Some x -> x ∈ delete i l.
Proof.
  intros Hne Hj. apply list_elem_of_lookup.
  destruct (Nat.lt_ge_cases j i) as [Hlt|Hge].
  - exists j. now rewrite list_lookup_delete_lt.
  - exists (j - 1)%nat. rewrite list_lookup_delete_ge by lia.
    replace (S (j - 1)) with j by lia. assumption.
Qed.

(** The second smallest entry of a list of non-negative numbers that has
    a zero at position i is the smallest entry at the other positions. *)
Lemma second_smallest (l : list R) (i : nat) :
  l !! i = Some 0%R -> Forall (Rle 0) l -> (2 <= length l)%nat ->
  exists d, rsort l !! 1%nat = Some d
    /\ d ∈ delete i l
    /\ forall x, x ∈ delete i l -> (d <= x)%R.
Proof.
  intros Hi Hpos Hlen.
  pose proof (rsort_perm l) as Hperm. pose proof (rsort_sorted l) as Hsorted.
  assert (Hl : length (rsort l) = length l) by (now rewrite Hperm).
  destruct (rsort l) as [|s0 [|s1 rest]] eqn:Es; simpl in Hl; try lia.
  apply StronglySorted_inv in Hsorted as [Hs Hall0].
  assert (H0 : s0 = 0%R).
  { apply Rle_antisym.
    - assert (Hin : (0%R ∈ s0 :: s1 :: rest)).
      { rewrite Hperm. eapply list_elem_of_lookup_2, Hi. }
      apply elem_of_cons in Hin as [<-|Hin]; [apply Rle_refl|].
      rewrite Forall_forall in Hall0. now apply Hall0.
    - rewrite Forall_forall in Hpos. apply Hpos. rewrite <- Hperm. now left. }
  subst s0.
  assert (Hrest : s1 :: rest ≡ₚ delete i l).
  { apply (Permutation.Permutation_cons_inv (a := 0%R)).
    rewrite Hperm. exact (delete_Permutation l i 0%R Hi). }
  exists s1. split; [reflexivity|]. split.
  - rewrite <- Hrest. now left.
  - intros x Hx. rewrite <- Hrest in Hx.
    apply elem_of_cons in Hx as [->|Hx]; [apply Rle_refl|].
    apply StronglySorted_inv in Hs as [_ Hall1].
    rewrite Forall_forall in Hall1. now apply Hall1.
Qed.

(** Column 1 of the k = 2 query at point i is the distance to the nearest
    other point. *)
Lemma query_second_nearest_other (cs : list point) (i : nat) (p : point) :
  cs !! i = Some p -> (2 <= length cs)%nat ->
  (exists j q, j <> i /\ cs !! j = Some q
               /\ query_second (mkKDTree cs) p = distance p q)
  /\ (forall j q, j <> i -> cs !! j = Some q ->
        (query_second (mkKDTree cs) p <= distance p q)%R).
Proof.
  intros Hp Hlen. unfold query_second. cbn [data].
  set (l := map (distance p) cs).
  assert (Hi : l !! i = Some 0%R).
  { unfold l. rewrite list_lookup_fmap, Hp. simpl. now rewrite distance_self. }
  assert (Hpos : Forall (Rle 0) l).
  { unfold l. apply Forall_map, Forall_forall. intros q _. apply distance_nonneg. }
  assert (Hl : (2 <= length l)%nat) by (unfold l; now rewrite length_map).
  destruct (second_smallest l i Hi Hpos Hl) as (d & Hd & Hin & Hmin).
  assert (Hnth : nth 1 (rsort l) 0%R = d).
  { apply nth_lookup_Some with (d := 0%R) in Hd. exact Hd. }
  rewrite Hnth. split.
  - apply elem_of_delete_other in Hin as (j & Hne & Hj).
    unfold l in Hj. rewrite list_lookup_fmap in Hj.
    destruct (cs !! j) as [q|] eqn:Hq; [|discriminate]. injection Hj as <-.
    exists j, q. auto.
  - intros j q Hne Hq. apply Hmin. apply (elem_of_other_delete l i j); [assumption|].
    unfold l. rewrite list_lookup_fmap, Hq. reflexivity.
Qed.



End NearestNeighbor.

(** ** The histogram counts every distance once *)

Section Histogram.

Import Stats.

Lemma fold_Rmin_le (l : list R) (x : R) :
  (fold_left Rmin l x <= x)%R /\ Forall (Rle (fold_left Rmin l x)) l
  /\ In (fold_left Rmin l x) (x :: l).
Proof.
  revert x. induction l as [|y l IH]; intros x; simpl.
  - split; [apply Rle_refl|]. split; [constructor|now left].
  - destruct (IH (Rmin x y)) as (H1 & H2 & H3). split; [|split].
    + eapply Rle_trans; [exact H1|apply Rmin_l].
    + constructor; [|exact H2]. eapply Rle_trans; [exact H1|apply Rmin_r].
    + destruct H3 as [H3|H3]; [|now right; right].
      rewrite <- H3. unfold Rmin. destruct (Rle_dec x y); [now left|now right; left].
Qed.

Lemma fold_Rmax_ge (l : list R) (x : R) :
  (x <= fold_left Rmax l x)%R /\ Forall (fun y => (y <= fold_left Rmax l x)%R) l
  /\ In (fold_left Rmax l x) (x :: l).
Proof.
  revert x. induction l as [|y l IH]; intros x; simpl.
  - split; [apply Rle_refl|]. split; [constructor|now left].
  - destruct (IH (Rmax x y)) as (H1 & H2 & H3). split; [|split].
    + eapply Rle_trans; [apply Rmax_l|exact H1].
    + constructor; [|exact H2]. eapply Rle_trans; [apply Rmax_r|exact H1].
    + destruct H3 as [H3|H3]; [|now right; right].
      rewrite <- H3. unfold Rmax. destruct (Rle_dec x y); [now right; left|now left].
Qed.

(** [rmin] and [rmax] are the least and the greatest entry. *)
Lemma rmin_least (l : list R) :
  l <> [] -> In (rmin l) l /\ forall x, In x l -> (rmin l <= x)%R.
Proof.
  destruct l as [|y l]; [congruence|]. intros _. unfold rmin.
  destruct (fold_Rmin_le l y) as (H1 & H2 & H3). split; [exact H3|].
  intros x [<-|Hx]; [exact H1|]. rewrite Forall_forall in H2.
  apply H2, list_elem_of_In, Hx.
Qed.

Lemma rmax_greatest (l : list R) :
  l <> [] -> In (rmax l) l /\ forall x, In x l -> (x <= rmax l)%R.
Proof.
  destruct l as [|y l]; [congruence|]. intros _. unfold rmax.
  destruct (fold_Rmax_ge l y) as (H1 & H2 & H3). split; [exact H3|].
  intros x [<-|Hx]; [exact H1|]. rewrite Forall_forall in H2.
  apply (H2 x), list_elem_of_In, Hx.
Qed.

(** Counting by bins and then by values, or the other way round. *)
Section OneValue.

(** Evenly spaced edges from [lo] in steps of [w > 0], and a value [x]
    between the first and the last of them. *)
Variables (lo w x : R).
Hypothesis Hw : (0 < w)%R.
Hypothesis Hlo : (lo <= x)%R.
Hypothesis Hhi : (x <= lo + INR n_bins * w)%R.

Let edges : list R := map (fun i => (lo + INR i * w)%R) (seq 0 (S n_bins)).




End OneValue.



End Histogram.

Section NearestNeighborDistribution.

Import Stats.










End NearestNeighborDistribution.

(** * Further properties of the engine *)

From Stdlib Require Import Psatz.

(** ** The count grid accounts for every point *)

Section GridTotals.

Import Density.

Lemma zsum_acc (l : list Z) (a : Z) : fold_left Z.add l a = a + fold_left Z.add l 0.
Proof.
  revert a. induction l as [|x l IH]; intros a; cbn [fold_left]; [lia|].
  rewrite (IH (a + x)), (IH (0 + x)). lia.
Qed.

Lemma zsum_app (l k : list Z) :
  fold_left Z.add (l ++ k) 0 = fold_left Z.add l 0 + fold_left Z.add k 0.
Proof. rewrite fold_left_app, zsum_acc. reflexivity. Qed.

Lemma sum2_app (g h : list (list Z)) : sum2 (g ++ h) = sum2 g + sum2 h.
Proof. unfold sum2. rewrite concat_app. apply zsum_app. Qed.

Lemma zsum_insert (row : list Z) (j : nat) (v w : Z) :
  row !! j = Some v ->
  fold_left Z.add (<[j := w]> row) 0 = fold_left Z.add row 0 - v + w.
Proof.
  intros Hj. pose proof (lookup_lt_Some _ _ _ Hj) as Hlt.
  rewrite insert_take_drop by assumption.
  rewrite <- (take_drop_middle row j v Hj) at 3.
  rewrite !zsum_app. simpl. rewrite (zsum_acc _ w), (zsum_acc _ v). lia.
Qed.

Lemma sum2_insert (g : list (list Z)) (i : nat) (row row' : list Z) :
  g !! i = Some row ->
  sum2 (<[i := row']> g)
  = sum2 g - fold_left Z.add row 0 + fold_left Z.add row' 0.
Proof.
  intros Hi. pose proof (lookup_lt_Some _ _ _ Hi) as Hlt.
  rewrite insert_take_drop by assumption.
  rewrite <- (take_drop_middle g i row Hi) at 3.
  rewrite !sum2_app. unfold sum2. simpl. rewrite !zsum_app. lia.
Qed.

(** Every successful [a[i0, i1] += 1] adds one to the sum of the array and
    keeps the entries non-negative. *)
Lemma add_at1_sum (g g' : list (list Z)) (c : Z * Z) :
  add_at1 g c = Return g' ->
  sum2 g' = sum2 g + 1
  /\ (Forall (Forall (Z.le 0)) g -> Forall (Forall (Z.le 0)) g').
Proof.
  unfold add_at1.
  destruct (norm_index (fst c) (length g)) as [i0|]; [|discriminate]. cbn [Py.bind].
  destruct (g !! i0) as [row|] eqn:Hrow; [|discriminate].
  destruct (norm_index (snd c) (length row)) as [i1|]; [|discriminate]. cbn [Py.bind].
  destruct (row !! i1) as [v|] eqn:Hv; [|discriminate]. intros [= <-]. split.
  - rewrite (sum2_insert g i0 row _ Hrow), (zsum_insert row i1 v _ Hv). lia.
  - intros Hpos. apply Forall_insert; [assumption|].
    assert (Hr : Forall (Z.le 0) row).
    { rewrite Forall_forall in Hpos. apply Hpos. eapply list_elem_of_lookup_2, Hrow. }
    apply Forall_insert; [assumption|].
    rewrite Forall_forall in Hr. specialize (Hr v (list_elem_of_lookup_2 _ _ _ Hv)). lia.
Qed.

Lemma add_at_sum (cells : list (Z * Z)) :
  forall g g', add_at g cells = Return g' ->
  sum2 g' = sum2 g + Z.of_nat (length cells)
  /\ (Forall (Forall (Z.le 0)) g -> Forall (Forall (Z.le 0)) g').
Proof.
  induction cells as [|c cells IH]; intros g g'; cbn [add_at].
  - intros [= <-]. split; [simpl; lia|auto].
  - destruct (add_at1 g c) as [g1|] eqn:E1; [|discriminate]. cbn [Py.bind].
    intros E2. apply add_at1_sum in E1 as [S1 P1]. apply IH in E2 as [S2 P2].
    split; [rewrite S2, S1; simpl length; lia|auto].
Qed.

Lemma zeros_sum (rows cols : Z) (z : list (list Z)) :
  zeros rows cols = Return z -> sum2 z = 0 /\ Forall (Forall (Z.le 0)) z.
Proof.
  intros Hz. apply zeros_inv in Hz as (_ & _ & ->). split.
  - unfold sum2. induction (Z.to_nat rows) as [|n IH]; [reflexivity|].
    simpl. rewrite zsum_app, IH.
    clear IH. induction (Z.to_nat cols) as [|m IHm]; [reflexivity|]. simpl. exact IHm.
  - apply Forall_replicate, Forall_replicate. lia.
Qed.

Lemma zsum_nonneg_bound (l : list Z) (x : Z) :
  Forall (Z.le 0) l -> In x l -> 0 <= x <= fold_left Z.add l 0.
Proof.
  induction 1 as [|y l Hy Hl IH]; intros Hin; [destruct Hin|].
  simpl. rewrite zsum_acc.
  assert (0 <= fold_left Z.add l 0).
  { clear -Hl. induction Hl as [|z l Hz Hl IH]; simpl; [lia|]. rewrite zsum_acc. lia. }
  destruct Hin as [->|Hin]; [lia|]. specialize (IH Hin). lia.
Qed.

Lemma fold_Zmax_spec (l : list Z) (x : Z) :
  In (fold_left Z.max l x) (x :: l) /\ forall y, In y (x :: l) -> y <= fold_left Z.max l x.
Proof.
  revert x. induction l as [|z l IH]; intros x; simpl.
  - split; [now left|]. intros y [<-|[]]. lia.
  - destruct (IH (Z.max x z)) as [Hin Hle]. split.
    + destruct Hin as [Hin|Hin]; [|now right; right].
      rewrite <- Hin. destruct (Z.max_spec x z) as [[_ ->]|[_ ->]]; [now right; left|now left].
    + assert (Z.max x z <= fold_left Z.max l (Z.max x z)) by (apply Hle; now left).
      intros y [<-|[<-|Hy]]; [lia|lia|]. apply Hle. now right.
Qed.

(** What a result for a non-empty point set is made of. *)
Lemma grid_density_nonempty_inv (self : DensityEstimator) (s : Q)
    (labels : option (list string)) (r : GridResult) :
  centroids self <> [] ->
  compute_grid_density self s labels = Return r ->
  exists n_x n_y z m,
    zeros n_y n_x = Return z
    /\ add_at z (map (cell_of (self_bounds self) s n_y n_x) (centroids self))
       = Return (grid r)
    /\ max2 (grid r) = Return m
    /\ shape r = Some (n_y, n_x)
    /\ max_count r = Some m
    /\ total_count r = Some (sum2 (grid r))
    /\ match labels with
       | None => by_label r = None
       | Some ls =>
           exists grids,
             label_grids n_y n_x
               (map (cell_of (self_bounds self) s n_y n_x) (centroids self)) ls (unique ls)
             = Return grids
             /\ by_label r = Some grids
       end.
Proof.
  intros Hne. unfold compute_grid_density.
  destruct (self_bounds self) as [[[x_min y_min] x_max] y_max].
  destruct (extent_cells x_min x_max s) as [n_x|]; [|discriminate]. cbn [Py.bind].
  destruct (extent_cells y_min y_max s) as [n_y|]; [|discriminate]. cbn [Py.bind].
  destruct (centroids self) as [|p cs]; [congruence|].
  destruct (zeros n_y n_x) as [z|] eqn:Ez; [|discriminate]. cbn [Py.bind].
  match goal with |- context [add_at z ?c] => destruct (add_at z c) as [g|] eqn:Eg end;
    [|discriminate].
  cbn [Py.bind]. destruct (max2 g) as [m|] eqn:Em; [|discriminate]. cbn [Py.bind].
  destruct labels as [ls|].
  - match goal with |- context [label_grids ?a ?b ?c ?d ?e] =>
      destruct (label_grids a b c d e) as [grids|] eqn:El end; [|discriminate].
    cbn [Py.bind]. intros [= <-]. exists n_x, n_y, z, m.
    cbn [grid shape max_count total_count by_label].
    do 6 (split; [first [assumption | reflexivity]|]).
    exists grids. split; [assumption|reflexivity].
  - intros [= <-]. exists n_x, n_y, z, m.
    cbn [grid shape max_count total_count by_label].
    do 6 (split; [first [assumption | reflexivity]|]). reflexivity.
Qed.

(** X1.  Every result for a non-empty point set counts each point once:
    total_count is the number of points, and max_count lies between 1 and
    that number. *)
Theorem grid_counts_every_point (self : DensityEstimator) (s : Q)
    (labels : option (list string)) (r : GridResult) :
  centroids self <> [] ->
  compute_grid_density self s labels = Return r ->
  total_count r = Some (Z.of_nat (length (centroids self)))
  /\ exists m, max_count r = Some m /\ 1 <= m <= Z.of_nat (length (centroids self)).
Proof.
  intros Hne Hr.
  destruct (grid_density_nonempty_inv self s labels r Hne Hr)
    as (n_x & n_y & z & m & Ez & Eg & Em & _ & Hmax & Htot & _).
  apply zeros_sum in Ez as [Hz0 Hzpos]. apply add_at_sum in Eg as [Hsum Hpos].
  specialize (Hpos Hzpos). rewrite Hz0, length_map in Hsum.
  split; [rewrite Htot, Hsum; f_equal; lia|].
  exists m. split; [assumption|].
  unfold max2 in Em. destruct (concat (grid r)) as [|v rest] eqn:Ec; [discriminate|].
  injection Em as <-. destruct (fold_Zmax_spec rest v) as [Hin Hge].
  assert (Hall : Forall (Z.le 0) (v :: rest)).
  { rewrite <- Ec. apply Forall_concat. exact Hpos. }
  pose proof (zsum_nonneg_bound _ _ Hall Hin) as Hb.
  unfold sum2 in Hsum. rewrite Ec in Hsum. split; [|lia].
  destruct (Z_lt_le_dec (fold_left Z.max rest v) 1) as [Hlt|]; [|assumption].
  exfalso.
  assert (Hzero : Forall (fun y => y = 0) (v :: rest)).
  { rewrite Forall_forall in Hall |- *. intros y Hy.
    specialize (Hall y Hy). specialize (Hge y (proj1 (list_elem_of_In _ _) Hy)). lia. }
  assert (Hs0 : fold_left Z.add (v :: rest) 0 = 0).
  { clear -Hzero. induction Hzero as [|y l -> _ IH]; [reflexivity|]. simpl. exact IH. }
  destruct (centroids self); [congruence|]. simpl length in Hsum. lia.
Qed.

Lemma grid_counts_every_point_witness :
  exists r,
    compute_grid_density (init [(1, 1); (2, 2); (7, 7)]%Q (Some (0, 0, 10, 10)%Q)) 5 None
    = Return r
    /\ total_count r = Some 3.
Proof.
  eexists. split; [reflexivity|].
  apply (grid_counts_every_point
           (init [(1, 1); (2, 2); (7, 7)]%Q (Some (0, 0, 10, 10)%Q)) 5 None);
    [discriminate|reflexivity].
Defined.

End GridTotals.

(** ** Per-label grids *)

Section LabelGrids.

Import Density.








End LabelGrids.

(** ** Smoothing rescales to a maximum of 1 *)

Section SmoothedRange.

Import Density.

Variable convolve : Q -> list (list Q) -> py (list (list Q)).

Lemma amax_spec (l : list Q) (m : Q) :
  amax l = Return m -> In m l /\ forall v, In v l -> (v <= m)%Q.
Proof.
  destruct l as [|x l]; [discriminate|]. simpl. intros [= <-].
  exact (fold_Qmax_is_max l x).
Qed.

Lemma amin_spec (l : list Q) (m : Q) :
  amin l = Return m -> In m l /\ forall v, In v l -> (m <= v)%Q.
Proof.
  destruct l as [|x l]; [discriminate|]. simpl. intros [= <-].
  exact (fold_Qmin_is_min l x).
Qed.

Lemma in_concat_map_map {A B : Type} (f : A -> B) (g : list (list A)) (w : B) :
  In w (concat (map (map f) g)) <-> exists v, In v (concat g) /\ w = f v.
Proof.
  induction g as [|row g IH]; simpl.
  - split; [intros []|intros (v & [] & _)].
  - rewrite in_app_iff, IH, in_map_iff. split.
    + intros [(v & <- & Hv)|(v & Hv & ->)]; exists v; rewrite in_app_iff; auto.
    + intros (v & Hv & ->). apply in_app_iff in Hv as [Hv|Hv]; [left|right]; eauto.
Qed.

(** X6.  Whatever the Gaussian filter returns, the smoothed grid that is
    handed back has no entry above 1, and if it has a positive entry then
    it has an entry equal to 1; the rest of the result is the result of
    [compute_grid_density] for the same cell size, and sigma is echoed. *)
Theorem smoothed_grid_peaks_at_one (self : DensityEstimator) (s sg : Q)
    (r : SmoothedResult) :
  compute_smoothed_density convolve self s sg = Return r ->
  compute_grid_density self s None = Return (grid_result r)
  /\ sigma r = sg
  /\ (forall v, In v (concat (smoothed_grid r)) -> (v <= 1)%Q)
  /\ ((exists v, In v (concat (smoothed_grid r)) /\ (0 < v)%Q) ->
      exists v, In v (concat (smoothed_grid r)) /\ (v == 1)%Q).
Proof.
  unfold compute_smoothed_density.
  destruct (compute_grid_density self s None) as [gr|]; [|discriminate]. cbn [Py.bind].
  destruct (gaussian_filter convolve (to_float (grid gr)) sg) as [sm|]; [|discriminate].
  cbn [Py.bind]. destruct (qmax2 sm) as [mx|] eqn:Emx; [|discriminate]. cbn [Py.bind].
  intros [= <-]. cbn [grid_result sigma smoothed_grid].
  split; [reflexivity|]. split; [reflexivity|].
  apply amax_spec in Emx as [Hin Hmax].
  destruct (Qlt_le_dec 0 mx) as [Hpos|Hnon].
  - assert (Hne : ~ (mx == 0)%Q) by (intros E; rewrite E in Hpos; now apply Qlt_irrefl in Hpos).
    split.
    + intros w Hw. apply in_concat_map_map in Hw as (v & Hv & ->).
      apply Qle_shift_div_r; [assumption|]. rewrite Qmult_1_l. now apply Hmax.
    + intros _. exists (mx / mx)%Q. split.
      * apply in_concat_map_map. exists mx. split; [exact Hin|reflexivity].
      * field. exact Hne.
  - split.
    + intros v Hv. specialize (Hmax v Hv). lra.
    + intros (v & Hv & Hvpos). specialize (Hmax v Hv). lra.
Qed.

End SmoothedRange.

Lemma smoothed_grid_peaks_at_one_witness :
  exists r,
    Density.compute_smoothed_density (fun _ g => Return g)
      (Density.init [(1, 1); (2, 2); (7, 7)]%Q (Some (0, 0, 10, 10)%Q)) 5 2 = Return r
    /\ Density.sigma r = 2%Q.
Proof.
  eexists. split; [reflexivity|].
  apply (smoothed_grid_peaks_at_one (fun _ g => Return g)
           (Density.init [(1, 1); (2, 2); (7, 7)]%Q (Some (0, 0, 10, 10)%Q)) 5 2 _ eq_refl).
Defined.

(** ** Kernel density: failures are values, densities are normalised *)

Section KdeResults.

Import Density.

Variable G : Type.
Variable choice : G -> nat -> nat -> list nat * G.
Variable gaussian_kde : list point -> option Q -> list point -> py (list Q).

Lemma compute_kde_outcome (self : DensityEstimator) (res : Z) (bw : option Q) (g : G) :
  exists sample,
    fst (compute_kde G choice gaussian_kde self res bw g)
    = kde_outcome gaussian_kde self res bw sample.
Proof.
  destruct (Nat.lt_ge_cases kde_cap (length (centroids self))) as [Hlt|Hge].
  - eexists. apply compute_kde_large. exact Hlt.
  - exists (Return (centroids self)).
    rewrite (compute_kde_small G choice gaussian_kde self res bw g Hge). reflexivity.
Qed.

Lemma linspace_length (a b : Q) (num : Z) (l : list Q) :
  linspace a b num = Return l -> 0 <= num /\ length l = Z.to_nat num.
Proof.
  unfold linspace. destruct (Z.ltb_spec num 0); [discriminate|].
  destruct (Z.eqb_spec num 1) as [->|_]; intros [= <-].
  - split; [lia|reflexivity].
  - split; [assumption|]. now rewrite length_map, length_seq.
Qed.



Lemma chunks_shape {A : Type} (rows cols : nat) :
  forall a : list A, length a = (rows * cols)%nat ->
  has_shape (chunks rows cols a) rows cols /\ concat (chunks rows cols a) = a.
Proof.
  induction rows as [|rows IH]; intros a Hlen; simpl.
  - split; [split; [reflexivity|constructor]|]. destruct a; [reflexivity|discriminate].
  - destruct (IH (drop cols a)) as [[Hl Hr] Hc].
    { rewrite length_drop. simpl in Hlen. lia. }
    split; [split|].
    + simpl. now rewrite Hl.
    + constructor; [|exact Hr]. rewrite length_take. simpl in Hlen. lia.
    + rewrite Hc. apply take_drop.
Qed.

(** X8.  A density surface returned by [compute_kde] is a resolution x
    resolution grid over resolution mesh coordinates per axis, and the
    min-max normalisation keeps every value v in it between 0 and 1. *)
Theorem kde_surface_normalised (self : DensityEstimator) (res : Z) (bw : option Q)
    (g : G) (surf : KdeSurface) :
  fst (compute_kde G choice gaussian_kde self res bw g) = Return (KdeOk surf) ->
  0 <= res
  /\ resolution surf = res /\ kde_bounds surf = self_bounds self
  /\ length (x_coords surf) = Z.to_nat res /\ length (y_coords surf) = Z.to_nat res
  /\ has_shape (density surf) (Z.to_nat res) (Z.to_nat res)
  /\ forall v, In v (concat (density surf)) -> (0 <= v)%Q /\ (v <= 1)%Q.
Proof.
  destruct (compute_kde_outcome self res bw g) as [sample ->]. unfold kde_outcome.
  destruct (Nat.ltb (length (centroids self)) 10); [discriminate|].
  destruct (self_bounds self) as [[[x_min y_min] x_max] y_max].
  destruct (linspace x_min x_max res) as [xg|] eqn:Ex; [|discriminate].
  destruct (linspace y_min y_max res) as [yg|] eqn:Ey; [|discriminate].
  destruct (kde_fit gaussian_kde sample res bw (mesh_positions xg yg)) as [dens|] eqn:Ef;
    [|discriminate].
  intros [= <-]. cbn [resolution kde_bounds x_coords y_coords density].
  apply linspace_length in Ex as [Hres Hxl]. apply linspace_length in Ey as [_ Hyl].
  split; [assumption|]. do 4 (split; [first [reflexivity | assumption]|]).
  unfold kde_fit in Ef. destruct sample as [smp|]; [|discriminate]. cbn [Py.bind] in Ef.
  destruct (gaussian_kde smp bw (mesh_positions xg yg)) as [flat|]; [|discriminate].
  cbn [Py.bind] in Ef. unfold reshape in Ef.
  destruct (Z.eqb_spec (Z.of_nat (length flat)) (res * res)) as [Hlen|]; [|discriminate].
  cbn [Py.bind] in Ef.
  destruct (chunks_shape (Z.to_nat res) (Z.to_nat res) flat) as [[Hrows Hcols] Hcat]; [nia|].
  rewrite Hcat in Ef.
  destruct (amin flat) as [lo|] eqn:Elo; [|discriminate]. cbn [Py.bind] in Ef.
  destruct (amax flat) as [hi|] eqn:Ehi; [|discriminate]. cbn [Py.bind] in Ef.
  injection Ef as <-. split.
  - split; [now rewrite length_map|]. apply Forall_map. simpl.
    eapply Forall_impl; [exact Hcols|]. intros row Hrow. now rewrite length_map.
  - intros w Hw. apply in_concat_map_map in Hw as (v & Hv & ->). rewrite Hcat in Hv.
    apply amin_spec in Elo as [Hlo_in Hlo]. apply amax_spec in Ehi as [_ Hhi].
    specialize (Hlo v Hv). specialize (Hhi v Hv).
    assert (Heps : (0 < kde_epsilon)%Q) by reflexivity.
    assert (Hden : (0 < hi - lo + kde_epsilon)%Q) by lra.
    split.
    + apply Qle_shift_div_l; [assumption|]. lra.
    + apply Qle_shift_div_r; [assumption|]. lra.
Qed.

End KdeResults.


Lemma kde_surface_normalised_witness :
  exists surf,
    fst (Density.compute_kde nat Toy.choice Toy.box_kde
           (Density.init (replicate 12 (1, 2)%Q) (Some (0, 0, 2, 2)%Q)) 2 None 0%nat)
    = Return (Density.KdeOk surf)
    /\ has_shape (Density.density surf) 2 2.
Proof.
  eexists. split; [reflexivity|].
  apply (kde_surface_normalised nat Toy.choice Toy.box_kde
           (Density.init (replicate 12 (1, 2)%Q) (Some (0, 0, 2, 2)%Q)) 2 None 0%nat _
           eq_refl).
Defined.

(** ** Percentiles of a sorted sample *)

Section Percentiles.

Import Contours.

#[local] Instance Qle_total : Total Qle.
Proof. intros x y. destruct (Qlt_le_dec x y); [left; now apply Qlt_le_weak|now right]. Qed.

#[local] Instance Qle_transitive : Transitive Qle.
Proof. intros x y z. apply Qle_trans. Qed.

Lemma qsort_perm (l : list Q) : qsort l ≡ₚ l.
Proof. apply merge_sort_Permutation. Qed.

Lemma qsort_sorted (l : list Q) : StronglySorted Qle (qsort l).
Proof. apply StronglySorted_merge_sort; apply _. Qed.

Lemma qsort_length (l : list Q) : length (qsort l) = length l.
Proof. now rewrite qsort_perm. Qed.

Lemma sorted_nth_mono (s : list Q) :
  StronglySorted Qle s ->
  forall i j, (i <= j)%nat -> (j < length s)%nat -> (nth i s 0 <= nth j s 0)%Q.
Proof.
  induction 1 as [|x s Hs IH Hx]; intros i j Hij Hj; [simpl in Hj; lia|].
  destruct i as [|i]; destruct j as [|j]; simpl; try lia.
  - apply Qle_refl.
  - rewrite Forall_forall in Hx. apply Hx, list_elem_of_In, nth_In. simpl in Hj. lia.
  - apply IH; simpl in Hj; lia.
Qed.

Lemma qsort_nth_in (l : list Q) (i : nat) :
  (i < length l)%nat -> In (nth i (qsort l) 0%Q) l.
Proof.
  intros Hi. apply (Permutation.Permutation_in _ (qsort_perm l)).
  apply nth_In. now rewrite qsort_length.
Qed.

Section Sample.

Variable a : list Q.
Hypothesis Hne : a <> [].

Let n1 : Q := inject_Z (Z.of_nat (length a - 1)).

(** The value at virtual index [t]. *)
Let at_index (t : Q) : Q :=
  (nth (Z.to_nat (Qfloor t)) (qsort a) 0
   + (t - inject_Z (Qfloor t))
     * (nth (Nat.min (S (Z.to_nat (Qfloor t))) (length a - 1)) (qsort a) 0
        - nth (Z.to_nat (Qfloor t)) (qsort a) 0))%Q.

Lemma length_pos : (0 < length a)%nat.
Proof using Hne. destruct a; [congruence|simpl; lia]. Qed.

Lemma floor_index (t : Q) :
  (0 <= t)%Q -> (t <= n1)%Q ->
  0 <= Qfloor t /\ (Z.to_nat (Qfloor t) <= length a - 1)%nat
  /\ (0 <= t - inject_Z (Qfloor t))%Q /\ (t - inject_Z (Qfloor t) < 1)%Q.
Proof using Type.
  intros H0 H1.
  assert (Hf0 : 0 <= Qfloor t).
  { rewrite <- (Qfloor_Z 0). apply Qfloor_resp_le. exact H0. }
  assert (Hf1 : Qfloor t <= Z.of_nat (length a - 1)).
  { rewrite <- (Qfloor_Z (Z.of_nat (length a - 1))). apply Qfloor_resp_le. exact H1. }
  pose proof (Qfloor_le t) as Hle. pose proof (Qlt_floor t) as Hlt.
  rewrite inject_Z_plus in Hlt. change (inject_Z 1) with 1%Q in Hlt.
  split; [assumption|]. split; [lia|]. split; lra.
Qed.

Lemma at_index_between (t : Q) :
  (0 <= t)%Q -> (t <= n1)%Q ->
  (nth (Z.to_nat (Qfloor t)) (qsort a) 0 <= at_index t)%Q
  /\ (at_index t
      <= nth (Nat.min (S (Z.to_nat (Qfloor t))) (length a - 1)) (qsort a) 0)%Q.
Proof using Hne.
  intros H0 H1. destruct (floor_index t H0 H1) as (Hf0 & Hlo & Hg0 & Hg1).
  pose proof length_pos as Hn.
  assert (Hs : (nth (Z.to_nat (Qfloor t)) (qsort a) 0
                <= nth (Nat.min (S (Z.to_nat (Qfloor t))) (length a - 1)) (qsort a) 0)%Q).
  { apply sorted_nth_mono; [apply qsort_sorted|lia|rewrite qsort_length; lia]. }
  unfold at_index.
  set (x := nth (Z.to_nat (Qfloor t)) (qsort a) 0%Q) in *.
  set (y := nth (Nat.min (S (Z.to_nat (Qfloor t))) (length a - 1)) (qsort a) 0%Q) in *.
  set (gm := (t - inject_Z (Qfloor t))%Q) in *.
  assert (Hp : (0 <= gm * (y - x))%Q) by (apply Qmult_le_0_compat; lra).
  assert (Hq : (0 <= (1 - gm) * (y - x))%Q) by (apply Qmult_le_0_compat; lra).
  split; [lra|].
  assert (E : (y - (x + gm * (y - x)) == (1 - gm) * (y - x))%Q) by ring.
  lra.
Qed.

Lemma at_index_mono (t t' : Q) :
  (0 <= t)%Q -> (t <= t')%Q -> (t' <= n1)%Q -> (at_index t <= at_index t')%Q.
Proof using Hne.
  intros H0 Htt H1.
  assert (H0' : (0 <= t')%Q) by lra. assert (H1' : (t <= n1)%Q) by lra.
  destruct (floor_index t H0 H1') as (Hf0 & Hlo & Hg0 & Hg1).
  destruct (floor_index t' H0' H1) as (Hf0' & Hlo' & Hg0' & Hg1').
  pose proof (Qfloor_resp_le _ _ Htt) as Hfl.
  destruct (Z.eq_dec (Qfloor t) (Qfloor t')) as [E|Hneq].
  - unfold at_index. rewrite <- E.
    set (x := nth (Z.to_nat (Qfloor t)) (qsort a) 0%Q).
    set (y := nth (Nat.min (S (Z.to_nat (Qfloor t))) (length a - 1)) (qsort a) 0%Q).
    assert (Hs : (x <= y)%Q).
    { apply sorted_nth_mono; [apply qsort_sorted|lia|rewrite qsort_length].
      pose proof length_pos. lia. }
    assert (Hp : (0 <= (t' - t) * (y - x))%Q) by (apply Qmult_le_0_compat; lra).
    assert (Ed : ((x + (t' - inject_Z (Qfloor t)) * (y - x))
                  - (x + (t - inject_Z (Qfloor t)) * (y - x)) == (t' - t) * (y - x))%Q)
      by ring.
    lra.
  - destruct (at_index_between t H0 H1') as [_ Hup].
    destruct (at_index_between t' H0' H1) as [Hdown _].
    eapply Qle_trans; [exact Hup|]. eapply Qle_trans; [|exact Hdown].
    apply sorted_nth_mono; [apply qsort_sorted|lia|rewrite qsort_length].
    pose proof length_pos. lia.
Qed.

Lemma percentile_index (p : Q) :
  (0 <= p)%Q -> (p <= 100)%Q ->
  (0 <= p / 100 * n1)%Q /\ (p / 100 * n1 <= n1)%Q.
Proof using Type.
  intros H0 H1.
  assert (Hn : (0 <= n1)%Q).
  { unfold n1. change 0%Q with (inject_Z 0). rewrite <- Zle_Qle. lia. }
  assert (Hp0 : (0 <= p / 100)%Q) by (apply Qle_shift_div_l; [reflexivity|lra]).
  assert (Hp1 : (p / 100 <= 1)%Q) by (apply Qle_shift_div_r; [reflexivity|lra]).
  split; [apply Qmult_le_0_compat; assumption|].
  assert (Hq : (0 <= (1 - p / 100) * n1)%Q) by (apply Qmult_le_0_compat; lra).
  assert (E : (n1 - p / 100 * n1 == (1 - p / 100) * n1)%Q) by ring.
  lra.
Qed.

Lemma qpercentile_at_index (p : Q) : qpercentile a p = at_index (p / 100 * n1).
Proof using Type. reflexivity. Qed.

(** A percentile is a value between two entries of the sample. *)
Lemma qpercentile_between (p : Q) :
  (0 <= p)%Q -> (p <= 100)%Q ->
  exists x y, In x a /\ In y a /\ (x <= qpercentile a p)%Q /\ (qpercentile a p <= y)%Q.
Proof using Hne.
  intros H0 H1. destruct (percentile_index p H0 H1) as [Ht0 Ht1].
  destruct (floor_index _ Ht0 Ht1) as (_ & Hlo & _).
  destruct (at_index_between _ Ht0 Ht1) as [Hd Hu].
  pose proof length_pos as Hn.
  eexists; eexists. rewrite qpercentile_at_index.
  split; [|split; [|split; [exact Hd|exact Hu]]]; apply qsort_nth_in; lia.
Qed.

(** Percentiles grow with the percentage. *)
Lemma qpercentile_mono (p p' : Q) :
  (0 <= p)%Q -> (p <= p')%Q -> (p' <= 100)%Q ->
  (qpercentile a p <= qpercentile a p')%Q.
Proof using Hne.
  intros H0 Hpp H1. rewrite !qpercentile_at_index.
  assert (H0' : (0 <= p')%Q) by lra.
  destruct (percentile_index p H0 ltac:(lra)) as [Ht0 _].
  destruct (percentile_index p' H0' H1) as [_ Ht1].
  apply at_index_mono; [assumption| |assumption].
  apply Qmult_le_compat_r.
  - unfold Qdiv. apply Qmult_le_compat_r; [assumption|discriminate].
  - unfold n1. change 0%Q with (inject_Z 0). rewrite <- Zle_Qle. lia.
Qed.

End Sample.

End Percentiles.

(** ** Contour levels *)

Section ContourLevels.

Import Density Contours.

Variable convolve : Q -> list (list Q) -> py (list (list Q)).

Lemma linspace_entry (a b : Q) (num : Z) (ps : list Q) (i : nat) (p : Q) :
  linspace a b num = Return ps -> ps !! i = Some p ->
  (Z.of_nat i < num)
  /\ (p == a + inject_Z (Z.of_nat i) * ((b - a) / inject_Z (num - 1)))%Q.
Proof.
  unfold linspace. destruct (Z.ltb_spec num 0); [discriminate|].
  destruct (Z.eqb_spec num 1) as [->|Hn1]; intros [= <-] Hi.
  - destruct i; [|discriminate]. injection Hi as <-. split; [lia|].
    simpl. unfold Qdiv. change (/ inject_Z (1 - 1))%Q with 0%Q. ring.
  - rewrite list_lookup_fmap in Hi.
    destruct (seq 0 (Z.to_nat num) !! i) as [k|] eqn:Hk; [|discriminate].
    injection Hi as <-. apply lookup_seq in Hk as [-> Hlt]. split; [lia|reflexivity].
Qed.

(** [np.linspace(a, b, num)] with [a <= b] climbs from [a] to [b]. *)
Lemma linspace_ascending (a b : Q) (num : Z) (ps : list Q) :
  (a <= b)%Q -> linspace a b num = Return ps ->
  (forall i p, ps !! i = Some p -> (a <= p)%Q /\ (p <= b)%Q)
  /\ (forall i j p q, (i <= j)%nat -> ps !! i = Some p -> ps !! j = Some q -> (p <= q)%Q).
Proof.
  intros Hab Hps.
  assert (Hstep : forall i p, ps !! i = Some p ->
            (0 <= (b - a) / inject_Z (num - 1))%Q \/ i = 0%nat).
  { intros i p Hi. destruct (linspace_entry a b num ps i p Hps Hi) as [Hlt _].
    destruct (Z.eq_dec num 1) as [->|Hn1]; [right; lia|]. left.
    apply Qle_shift_div_l; [|lra].
    change 0%Q with (inject_Z 0). rewrite <- Zlt_Qlt. lia. }
  split.
  - intros i p Hi. destruct (linspace_entry a b num ps i p Hps Hi) as [Hlt Hp].
    destruct (Z.eq_dec num 1) as [->|Hn1].
    + assert (i = 0%nat) as -> by lia. rewrite Hp. simpl.
      unfold Qdiv. change (/ inject_Z (1 - 1))%Q with 0%Q. lra.
    + assert (Hd : (0 < inject_Z (num - 1))%Q).
      { change 0%Q with (inject_Z 0). rewrite <- Zlt_Qlt. lia. }
      assert (Hi0 : (0 <= inject_Z (Z.of_nat i))%Q).
      { change 0%Q with (inject_Z 0). rewrite <- Zle_Qle. lia. }
      assert (Hi1 : (inject_Z (Z.of_nat i) <= inject_Z (num - 1))%Q).
      { rewrite <- Zle_Qle. lia. }
      assert (Hs : (0 <= (b - a) / inject_Z (num - 1))%Q)
        by (apply Qle_shift_div_l; [assumption|lra]).
      assert (H1 : (0 <= inject_Z (Z.of_nat i) * ((b - a) / inject_Z (num - 1)))%Q)
        by (apply Qmult_le_0_compat; assumption).
      assert (H2 : (0 <= (inject_Z (num - 1) - inject_Z (Z.of_nat i))
                         * ((b - a) / inject_Z (num - 1)))%Q)
        by (apply Qmult_le_0_compat; [lra|assumption]).
      assert (E : (inject_Z (num - 1) * ((b - a) / inject_Z (num - 1)) == b - a)%Q).
      { field. intros E. rewrite E in Hd. now apply Qlt_irrefl in Hd. }
      assert (E2 : ((inject_Z (num - 1) - inject_Z (Z.of_nat i))
                    * ((b - a) / inject_Z (num - 1))
                    == (b - a) - inject_Z (Z.of_nat i) * ((b - a) / inject_Z (num - 1)))%Q).
      { rewrite <- E at 2. ring. }
      rewrite Hp. split; lra.
  - intros i j p q Hij Hi Hj.
    destruct (linspace_entry a b num ps i p Hps Hi) as [_ Hp].
    destruct (linspace_entry a b num ps j q Hps Hj) as [Hjn Hq].
    destruct (Hstep j q Hj) as [Hs| ->].
    + rewrite Hp, Hq.
      assert (Hd : (0 <= (inject_Z (Z.of_nat j) - inject_Z (Z.of_nat i))
                         * ((b - a) / inject_Z (num - 1)))%Q).
      { apply Qmult_le_0_compat; [|assumption].
        assert ((inject_Z (Z.of_nat i) <= inject_Z (Z.of_nat j))%Q)
          by (rewrite <- Zle_Qle; lia). lra. }
      assert (E : ((inject_Z (Z.of_nat j) - inject_Z (Z.of_nat i))
                   * ((b - a) / inject_Z (num - 1))
                   == inject_Z (Z.of_nat j) * ((b - a) / inject_Z (num - 1))
                      - inject_Z (Z.of_nat i) * ((b - a) / inject_Z (num - 1)))%Q) by ring.
      lra.
    + assert (i = 0%nat) as -> by lia. rewrite Hi in Hj. injection Hj as ->.
      apply Qle_refl.
Qed.

Lemma smoothed_entries_at_most_one (self : DensityEstimator) (s sg : Q)
    (r : SmoothedResult) :
  compute_smoothed_density convolve self s sg = Return r ->
  forall v, In v (concat (smoothed_grid r)) -> (v <= 1)%Q \/ (v <= 0)%Q.
Proof.
  unfold compute_smoothed_density.
  destruct (compute_grid_density self s None) as [gr|]; [|discriminate]. cbn [Py.bind].
  destruct (gaussian_filter convolve (to_float (grid gr)) sg) as [sm|]; [|discriminate].
  cbn [Py.bind]. destruct (qmax2 sm) as [mx|] eqn:Emx; [|discriminate]. cbn [Py.bind].
  intros [= <-]. cbn [smoothed_grid]. apply amax_spec in Emx as [_ Hmax].
  destruct (Qlt_le_dec 0 mx) as [Hpos|Hnon]; intros w Hw.
  - left. apply in_concat_map_map in Hw as (v & Hv & ->).
    apply Qle_shift_div_r; [assumption|]. rewrite Qmult_1_l. now apply Hmax.
  - right. specialize (Hmax w Hw). lra.
Qed.

(** X9.  [compute_contours] hands back the smoothed result unchanged.  If
    no smoothed value exceeds 0.01 the level list is empty and no
    'percentiles' key is set.  Otherwise there are n_levels percentages
    from 20 to 95 and as many levels; every level lies above 0.01 and at
    most at 1, and the levels are in ascending order. *)
Theorem contour_levels_ascending (self : DensityEstimator) (s : Q) (n_levels : Z)
    (sg : Q) (r : ContourResult) :
  compute_contours convolve self s n_levels sg = Return r ->
  compute_smoothed_density convolve self s sg = Return (smoothed_result r)
  /\ ((forall v, In v (concat (smoothed_grid (smoothed_result r))) ->
         (v <= contour_cutoff)%Q) ->
      contour_levels r = [] /\ percentiles r = None)
  /\ ((exists v, In v (concat (smoothed_grid (smoothed_result r)))
                 /\ (contour_cutoff < v)%Q) ->
      0 <= n_levels
      /\ length (contour_levels r) = Z.to_nat n_levels
      /\ (exists ps, percentiles r = Some ps /\ length ps = Z.to_nat n_levels)
      /\ (forall l, In l (contour_levels r) -> (contour_cutoff < l)%Q /\ (l <= 1)%Q)
      /\ (forall i j x y, (i <= j)%nat -> contour_levels r !! i = Some x ->
            contour_levels r !! j = Some y -> (x <= y)%Q)).
Proof.
  unfold compute_contours.
  destruct (compute_smoothed_density convolve self s sg) as [sr|] eqn:Esr; [|discriminate].
  cbn [Py.bind].
  set (non_zero := List.filter (fun v => negb (Qle_bool v contour_cutoff))
                               (concat (smoothed_grid sr))).
  assert (Hnz : forall v, In v non_zero <->
                  In v (concat (smoothed_grid sr)) /\ (contour_cutoff < v)%Q).
  { intros v. unfold non_zero. rewrite filter_In, negb_true_iff.
    split; intros [Hin Hv]; (split; [exact Hin|]).
    - apply Qnot_le_lt. intros Hle. apply Qle_bool_iff in Hle. congruence.
    - destruct (Qle_bool v contour_cutoff) eqn:E; [|reflexivity].
      apply Qle_bool_iff in E. lra. }
  destruct non_zero as [|v0 rest] eqn:Enz.
  - intros [= <-]. cbn [smoothed_result contour_levels percentiles].
    split; [reflexivity|]. split; [auto|].
    intros (v & Hv & Hgt). exfalso. apply (proj2 (Hnz v)). auto.
  - destruct (linspace 20 95 n_levels) as [ps|] eqn:Eps; [|discriminate]. cbn [Py.bind].
    intros [= <-]. cbn [smoothed_result contour_levels percentiles].
    split; [reflexivity|]. split.
    { intros Hall. exfalso. specialize (proj1 (Hnz v0) (or_introl eq_refl)) as [Hin Hgt].
      specialize (Hall v0 Hin). lra. }
    intros _. rewrite <- Enz in *.
    assert (Hne : non_zero <> []) by (rewrite Enz; discriminate).
    destruct (linspace_length _ _ _ _ Eps) as [Hn Hlen].
    destruct (linspace_ascending 20 95 n_levels ps ltac:(discriminate) Eps) as [Hrange Hasc].
    split; [assumption|]. split; [now rewrite length_map|].
    split; [exists ps; auto|]. split.
    + intros l Hl. apply in_map_iff in Hl as (p & <- & Hp).
      apply list_elem_of_In, list_elem_of_lookup in Hp as [i Hi].
      destruct (Hrange i p Hi) as [Hp0 Hp1].
      destruct (qpercentile_between non_zero Hne p ltac:(lra) ltac:(lra))
        as (x & y & Hx & Hy & Hlo & Hhi).
      apply Hnz in Hx as [_ Hx]. apply Hnz in Hy as [Hy Hygt].
      split; [lra|].
      destruct (smoothed_entries_at_most_one self s sg sr Esr y Hy) as [H1|H0];
        [lra|unfold contour_cutoff in *; lra].
    + intros i j x y Hij Hi Hj. rewrite list_lookup_fmap in Hi, Hj.
      destruct (ps !! i) as [p|] eqn:Hpi; [|discriminate].
      destruct (ps !! j) as [q|] eqn:Hpj; [|discriminate].
      injection Hi as <-. injection Hj as <-.
      destruct (Hrange i p Hpi) as [Hp0 _]. destruct (Hrange j q Hpj) as [_ Hq1].
      apply qpercentile_mono; [assumption|lra|eauto|lra].
Qed.

End ContourLevels.

Lemma contour_levels_ascending_witness :
  exists r,
    Contours.compute_contours (fun _ g => Return g)
      (Density.init [(1, 1); (2, 2); (7, 7)]%Q (Some (0, 0, 10, 10)%Q)) 5 3 0 = Return r
    /\ Density.compute_smoothed_density (fun _ g => Return g)
         (Density.init [(1, 1); (2, 2); (7, 7)]%Q (Some (0, 0, 10, 10)%Q)) 5 0
       = Return (Contours.smoothed_result r).
Proof.
  eexists. split; [reflexivity|].
  apply (proj1 (contour_levels_ascending (fun _ g => Return g)
                  (Density.init [(1, 1); (2, 2); (7, 7)]%Q (Some (0, 0, 10, 10)%Q)) 5 3 0 _
                  eq_refl)).
Defined.

(** ** The point probe *)

Section PointProbe.

Import Contours.



End PointProbe.

(** ** Ripley's K grows with the radius *)

Section RipleyShape.

Import Stats.

Lemma filter_length_mono {A : Type} (f g : A -> bool) (l : list A) :
  (forall x, In x l -> f x = true -> g x = true) ->
  (length (List.filter f l) <= length (List.filter g l))%nat.
Proof.
  induction l as [|x l IH]; intros H; simpl; [lia|].
  assert (IH' := IH (fun y Hy => H y (or_intror Hy))).
  destruct (f x) eqn:Ef.
  - rewrite (H x (or_introl eq_refl) Ef). simpl. lia.
  - destruct (g x); simpl; lia.
Qed.

Lemma filter_length_all {A : Type} (f : A -> bool) (l : list A) :
  (forall x, In x l -> f x = true) -> length (List.filter f l) = length l.
Proof.
  induction l as [|x l IH]; intros H; simpl; [reflexivity|].
  rewrite (H x (or_introl eq_refl)). simpl. f_equal. apply IH. intros y Hy. apply H. now right.
Qed.

Lemma kd_within_mono (r1 r2 : Q) (p q : point) :
  (Qabs r1 <= Qabs r2)%Q -> kd_within r1 p q = true -> kd_within r2 p q = true.
Proof.
  unfold kd_within. rewrite !Qle_bool_iff. intros Hr Hsq.
  eapply Qle_trans; [exact Hsq|].
  assert (Hsquare : forall r, (r * r == Qabs r * Qabs r)%Q).
  { intros r. rewrite <- Qabs_Qmult. symmetry. apply Qabs_pos, Qsquare_nonneg. }
  rewrite (Hsquare r1), (Hsquare r2).
  apply Qmult_le_compat_nonneg; split; first [apply Qabs_nonneg | assumption].
Qed.

Lemma index_pairs_length (n : nat) : (length (index_pairs n) * 2 = n * (n - 1))%nat.
Proof.
  unfold index_pairs.
  assert (H : forall len a, (a + len = n)%nat ->
            (length (concat (map (fun i => map (fun j => (i, j)) (seq (S i) (n - S i)))
                                 (seq a len))) * 2 = len * (len - 1))%nat).
  { induction len as [|len IH]; intros a Ha; [reflexivity|].
    cbn [seq map concat]. rewrite length_app, length_map, length_seq.
    specialize (IH (S a) ltac:(lia)). nia. }
  apply (H n 0%nat). lia.
Qed.

Lemma query_pairs_bound (t : KDTree) (r : Q) :
  (length (query_pairs t r) * 2 <= length (data t) * (length (data t) - 1))%nat.
Proof.
  unfold query_pairs. rewrite <- index_pairs_length.
  pose proof (filter_length_le (pair_within r (data t)) (index_pairs (length (data t)))).
  lia.
Qed.

Lemma k_at_mono (t : KDTree) (n : nat) (area r1 r2 : Q) :
  (0 <= area)%Q -> (Qabs r1 <= Qabs r2)%Q -> (k_at t n area r1 <= k_at t n area r2)%Q.
Proof.
  intros Ha Hr. unfold k_at. destruct (Nat.ltb_spec 1 n) as [Hn|]; [|apply Qle_refl].
  assert (Hlen : (length (query_pairs t r1) <= length (query_pairs t r2))%nat).
  { unfold query_pairs. apply filter_length_mono. intros [i j] _. unfold pair_within. simpl.
    destruct (data t !! i); [|discriminate]. destruct (data t !! j); [|discriminate].
    now apply kd_within_mono. }
  unfold Qdiv. apply Qmult_le_compat_r.
  - rewrite !(Qmult_comm area). apply Qmult_le_compat_r; [|assumption].
    rewrite <- Zle_Qle. lia.
  - apply Qinv_le_0_compat. change 0%Q with (inject_Z 0). rewrite <- Zle_Qle. lia.
Qed.

(** X11.  For N >= 2 and a positive area, no observed K is negative, and
    K does not decrease with the absolute value of the radius: among
    non-negative radii a larger radius never has a smaller K, and a
    negative radius has the K of its absolute value. *)
Theorem ripleys_k_monotone (cs : list point) (ls : option (list string))
    (rs : list Q) (area : Q) :
  (2 <= length cs)%nat -> (0 < area)%Q ->
  exists c, compute_ripleys_k (init cs ls) rs area = Return (RipleyOk c)
    /\ length (k_observed c) = length rs
    /\ (forall i r k, rs !! i = Some r -> k_observed c !! i = Some k -> (0 <= k)%Q)
    /\ (forall i j r1 r2 k1 k2,
          rs !! i = Some r1 -> rs !! j = Some r2 -> (Qabs r1 <= Qabs r2)%Q ->
          k_observed c !! i = Some k1 -> k_observed c !! j = Some k2 -> (k1 <= k2)%Q).
Proof.
  intros Hn Ha.
  assert (Htree : tree (init cs ls) = Some (mkKDTree cs)).
  { destruct cs; [simpl in Hn; lia|reflexivity]. }
  unfold compute_ripleys_k. rewrite Htree.
  rewrite area_nonzero by (intros E; rewrite E in Ha; now apply Qlt_irrefl in Ha).
  eexists. split; [reflexivity|]. cbn [k_observed].
  set (t := mkKDTree cs).
  change (length (centroids (init cs ls))) with (length cs).
  split; [apply length_map|]. split.
  - intros i r k Hr Hk. rewrite list_lookup_fmap, Hr in Hk. injection Hk as <-.
    apply k_at_nonneg; lra.
  - intros i j r1 r2 k1 k2 H1 H2 Hr Hk1 Hk2.
    rewrite list_lookup_fmap, H1 in Hk1. rewrite list_lookup_fmap, H2 in Hk2.
    injection Hk1 as <-. injection Hk2 as <-. apply k_at_mono; [lra|assumption].
Qed.

Lemma ripleys_k_monotone_witness :
  exists c k1 k2,
    compute_ripleys_k (init [(0, 0); (3, 4); (0, 1)]%Q None) [-1; 5]%Q 100
    = Return (RipleyOk c)
    /\ k_observed c = [k1; k2] /\ (k1 <= k2)%Q.
Proof.
  destruct (ripleys_k_monotone [(0, 0); (3, 4); (0, 1)]%Q None [-1; 5]%Q 100%Q)
    as (c & Ec & Hl & _ & Hmono); [simpl; lia|reflexivity|].
  destruct (k_observed c) as [|k1 [|k2 [|? ?]]] eqn:Ek; try discriminate Hl.
  exists c, k1, k2. split; [exact Ec|]. split; [exact Ek|].
  apply (Hmono 0%nat 1%nat (-1)%Q 5%Q); first [reflexivity | discriminate].
Defined.

End RipleyShape.

(** ** The nearest-neighbor statistics lie between the extremes *)

Section NNBounds.

Import Stats.

Lemma rsort_nth_in (l : list R) (i : nat) :
  (i < length l)%nat -> In (nth i (rsort l) 0%R) l.
Proof.
  intros Hi. apply (Permutation.Permutation_in _ (rsort_perm l)).
  apply nth_In. rewrite (Permutation.Permutation_length (rsort_perm l)). exact Hi.
Qed.

Section Sample.

Variable l : list R.
Hypothesis Hne : l <> [].

Lemma sample_size : (0 < length l)%nat.
Proof using Hne. destruct l; [congruence|simpl; lia]. Qed.

Lemma entry_bounds (x : R) : In x l -> (rmin l <= x <= rmax l)%R.
Proof using Hne.
  intros Hx. split; [apply (rmin_least l Hne)|apply (rmax_greatest l Hne)]; exact Hx.
Qed.

Lemma median_bounds : (rmin l <= median l <= rmax l)%R.
Proof using Hne.
  pose proof sample_size as Hn. unfold median.
  assert (Hhalf : (length l / 2 < length l)%nat) by (apply Nat.div_lt; lia).
  pose proof (entry_bounds _ (rsort_nth_in l (length l / 2) Hhalf)) as H2.
  destruct (Nat.even (length l)); [|exact H2].
  assert (Hprev : (length l / 2 - 1 < length l)%nat) by lia.
  pose proof (entry_bounds _ (rsort_nth_in l (length l / 2 - 1) Hprev)) as H1.
  lra.
Qed.

End Sample.

(** X12.  For N >= 2 no nearest-neighbor distance is negative: the
    returned minimum is at least 0, and the median lies between the
    minimum and the maximum. *)
Theorem nn_statistics_between_extremes (cs : list point) (ls : option (list string)) :
  (2 <= length cs)%nat ->
  exists stats,
    compute_nearest_neighbor_distribution (init cs ls) = NNOk stats
    /\ (0 <= nn_min stats)%R
    /\ (nn_min stats <= nn_median stats <= nn_max stats)%R.
Proof.
  intros Hlen. set (nn := nn_distances (mkKDTree cs) cs).
  assert (Hnn : length nn = length cs) by (unfold nn, nn_distances; apply length_map).
  assert (Hne : nn <> []) by (intros E; rewrite E in Hnn; simpl in Hnn; lia).
  exists (describe nn). split.
  { unfold compute_nearest_neighbor_distribution.
    destruct cs as [|p rest]; [simpl in Hlen; lia|]. rewrite init_tree_nonempty.
    cbn [centroids init].
    destruct (Nat.ltb_spec (length (p :: rest)) 2); [lia|reflexivity]. }
  cbn [describe nn_median nn_min nn_max].
  split.
  { destruct (rmin_least nn Hne) as [Hin _].
    apply in_map_iff in Hin as (p & Heq & Hp).
    apply list_elem_of_In, list_elem_of_lookup in Hp as [i Hi].
    destruct (query_second_nearest_other cs i p Hi Hlen) as [(j & q & _ & _ & Hd) _].
    rewrite <- Heq, Hd. apply distance_nonneg. }
  apply median_bounds, Hne.
Qed.

Lemma nn_statistics_between_extremes_witness :
  exists stats,
    compute_nearest_neighbor_distribution (init [(0, 0); (0, 0); (3, 4)]%Q None)
    = NNOk stats
    /\ (0 <= nn_min stats)%R.
Proof.
  destruct (nn_statistics_between_extremes [(0, 0); (0, 0); (3, 4)]%Q None)
    as (stats & Hs & Hmin & _); [simpl; lia|].
  exists stats. split; [exact Hs|exact Hmin].
Defined.

End NNBounds.

(** ** Colocalization scores and label counts *)

Section ColocalizationScores.

Import Stats.

Lemma lookup_le_row_total (row : gmap string nat) (k : string) :
  (default 0%nat (row !! k) <= row_total row)%nat.
Proof.
  destruct (row !! k) as [v|] eqn:Hk; simpl; [|lia].
  rewrite <- (insert_delete_id row k v Hk).
  rewrite row_total_insert by apply lookup_delete_eq. lia.
Qed.

Lemma score_row_range (uniq : list string) (c : gmap string (gmap string nat))
    (l k : string) (v : Q) :
  In (k, v) (score_row uniq c l) -> (0 <= v)%Q /\ (v <= 1)%Q.
Proof.
  unfold score_row. intros Hin. apply in_map_iff in Hin as (k' & [= -> <-] & _).
  set (row := default ∅ (c !! l)).
  pose proof (lookup_le_row_total row k) as Hle.
  destruct (Nat.ltb_spec 0 (row_total row)) as [Hpos|_]; [|split; [apply Qle_refl|discriminate]].
  assert (Hd : (0 < qnat (row_total row))%Q).
  { unfold qnat. change 0%Q with (inject_Z 0). rewrite <- Zlt_Qlt. lia. }
  split.
  - apply Qle_shift_div_l; [assumption|]. rewrite Qmult_0_l.
    unfold qnat. change 0%Q with (inject_Z 0). rewrite <- Zle_Qle. lia.
  - apply Qle_shift_div_r; [assumption|]. rewrite Qmult_1_l.
    unfold qnat. rewrite <- Zle_Qle. lia.
Qed.

Lemma points_loop_counts (ls : list string) (items : list (nat * list nat)) :
  forall st st', for_each (visit_point ls) st items = Return st' ->
  forall l, default 0%nat (snd st' !! l)
            = (default 0%nat (snd st !! l) + length (List.filter (labelled ls l) items))%nat.
Proof.
  induction items as [|[i ns] items IH]; intros [c n] [c' n']; cbn [for_each].
  - intros [= <- <-] l. simpl. lia.
  - destruct (visit_point ls (c, n) (i, ns)) as [[c1 n1]|] eqn:E1; [|discriminate].
    cbn [Py.bind]. intros E2 l. rewrite (IH _ _ E2 l). cbn [snd].
    unfold visit_point in E1. destruct (ls !! i) as [li|] eqn:Hi; [|discriminate].
    destruct (for_each (visit_neighbor ls i li) c ns) as [c2|]; [|discriminate].
    cbn [Py.bind] in E1. injection E1 as <- <-.
    cbn [List.filter]. unfold labelled at 2. cbn [fst]. rewrite Hi.
    destruct (String.eqb_spec l li) as [->|Hne].
    + rewrite lookup_insert_eq. simpl. lia.
    + rewrite lookup_insert_ne by congruence. simpl. lia.
Qed.

Lemma count_labelled (ls : list string) (l : string) (xs : list (list nat)) :
  forall a, (a + length xs <= length ls)%nat ->
  length (List.filter (labelled ls l) (zip (seq a (length xs)) xs))
  = length (List.filter (String.eqb l) (take (length xs) (drop a ls))).
Proof.
  induction xs as [|x xs IH]; intros a Ha; [reflexivity|].
  simpl in Ha. destruct (ls !! a) as [y|] eqn:Hy.
  2:{ apply lookup_ge_None in Hy. lia. }
  change (zip (seq a (length (x :: xs))) (x :: xs))
    with ((a, x) :: zip (seq (S a) (length xs)) xs).
  change (length (x :: xs)) with (S (length xs)).
  rewrite (drop_S _ _ _ Hy).
  change (take (S (length xs)) (y :: drop (S a) ls))
    with (y :: take (length xs) (drop (S a) ls)).
  cbn [List.filter]. unfold labelled at 1. cbn [fst]. rewrite Hy.
  specialize (IH (S a) ltac:(lia)).
  destruct (String.eqb l y); cbn [length]; rewrite IH; reflexivity.
Qed.

(** X13.  In a returned colocalization result the radius is echoed, every
    row lists the distinct labels in ascending order, and every score
    lies between 0 and 1.  With one label per point, label_counts gives
    for every label the number of points that carry it. *)
Theorem colocalization_scores (cs : list point) (ls : list string) (radius : Q)
    (c : Colocalization) :
  compute_label_colocalization (init cs (Some ls)) radius = Return (ColocOk c) ->
  coloc_radius c = radius
  /\ (forall l row, In (l, row) (colocalization_matrix c) ->
        map fst row = unique ls
        /\ forall k v, In (k, v) row -> (0 <= v)%Q /\ (v <= 1)%Q)
  /\ (length ls = length cs ->
      forall l, default 0%nat (label_counts c !! l)
                = length (List.filter (String.eqb l) ls)).
Proof.
  unfold compute_label_colocalization, compute_label_colocalization_with.
  cbn [labels init].
  destruct cs as [|p rest]; [discriminate|]. rewrite init_tree_nonempty.
  remember (mkKDTree (p :: rest)) as t eqn:Ht.
  destruct (for_each (visit_point ls) (∅, ∅) (enumerate (query_ball_tree t radius)))
    as [st|] eqn:E; [|discriminate].
  cbn [Py.bind]. intros [= <-]. cbn [coloc_radius colocalization_matrix label_counts].
  split; [reflexivity|]. split.
  - intros l row Hin. apply in_map_iff in Hin as (l' & [= -> <-] & _). split.
    + unfold score_row. rewrite map_map. apply map_id.
    + intros k v. apply score_row_range.
  - intros Hlen l. rewrite (points_loop_counts ls _ _ _ E l). cbn [snd].
    rewrite lookup_empty. simpl. unfold enumerate.
    assert (Hn : length (query_ball_tree t radius) = length ls).
    { unfold query_ball_tree. rewrite length_map, Ht. cbn [data]. now rewrite Hlen. }
    rewrite (count_labelled ls l) by (rewrite Hn; lia).
    rewrite Hn, drop_0, firstn_all. reflexivity.
Qed.

Lemma colocalization_scores_witness :
  exists c,
    compute_label_colocalization
      (init [(0, 0); (1, 1); (100, 100)]%Q (Some ["a"; "b"; "a"]%string)) 50
    = Return (ColocOk c)
    /\ coloc_radius c = 50%Q.
Proof.
  eexists. split; [vm_compute; reflexivity|].
  apply (colocalization_scores [(0, 0); (1, 1); (100, 100)]%Q ["a"; "b"; "a"]%string 50).
  vm_compute. reflexivity.
Defined.

End ColocalizationScores.

(** ** Hotspot detection *)

Section Hotspots.

Import Stats.

Lemma insert_desc_in (h x : Hotspot) (l : list Hotspot) :
  In x (insert_desc h l) <-> x = h \/ In x l.
Proof.
  induction l as [|h' l IH]; simpl; [intuition|].
  destruct (Qle_bool (hs_density h') (hs_density h)); simpl; [intuition|].
  rewrite IH. intuition.
Qed.

Lemma sort_desc_in (x : Hotspot) (l : list Hotspot) : In x (sort_desc l) <-> In x l.
Proof.
  unfold sort_desc. induction l as [|h l IH]; simpl; [reflexivity|].
  rewrite insert_desc_in, IH. intuition.
Qed.

Lemma insert_desc_length (h : Hotspot) (l : list Hotspot) :
  length (insert_desc h l) = S (length l).
Proof.
  induction l as [|h' l IH]; simpl; [reflexivity|].
  destruct (Qle_bool (hs_density h') (hs_density h)); simpl; [reflexivity|now rewrite IH].
Qed.

Lemma insert_desc_sorted (h : Hotspot) (l : list Hotspot) :
  StronglySorted desc l -> StronglySorted desc (insert_desc h l).
Proof.
  induction 1 as [|h' l Hl IH Hh']; simpl.
  - repeat constructor.
  - destruct (Qle_bool (hs_density h') (hs_density h)) eqn:E.
    + apply Qle_bool_iff in E. constructor; [now constructor|].
      constructor; [exact E|]. eapply Forall_impl; [exact Hh'|].
      intros x Hx. unfold desc in *. lra.
    + constructor; [assumption|].
      assert (Hlt : (hs_density h < hs_density h')%Q).
      { apply Qnot_le_lt. intros Hle. apply Qle_bool_iff in Hle. congruence. }
      rewrite Forall_forall. intros x Hx. apply list_elem_of_In, insert_desc_in in Hx.
      destruct Hx as [->|Hx]; [unfold desc; lra|].
      rewrite Forall_forall in Hh'. apply Hh', list_elem_of_In, Hx.
Qed.

Lemma sort_desc_sorted (l : list Hotspot) : StronglySorted desc (sort_desc l).
Proof.
  unfold sort_desc. induction l as [|h l IH]; simpl; [constructor|].
  now apply insert_desc_sorted.
Qed.

Lemma hs_found_in (g : list (list Z)) (s d x_min y_min : Q) (n_x n_y : Z) (h : Hotspot) :
  In h (hs_found g s d x_min y_min n_x n_y) <->
  exists ix iy, (ix < Z.to_nat n_x)%nat /\ (iy < Z.to_nat n_y)%nat
    /\ (d <= hs_dens s (cell_count g ix iy))%Q
    /\ h = hs_record s x_min y_min ix iy (cell_count g ix iy).
Proof.
  unfold hs_found. rewrite in_concat. split.
  - intros (l & Hl & Hh). apply in_map_iff in Hl as (ix & <- & Hix).
    apply list_elem_of_In, list_elem_of_omap in Hh as (iy & Hiy & Hsome).
    apply list_elem_of_In in Hiy. apply in_seq in Hix, Hiy.
    destruct (Qle_bool d (hs_dens s (cell_count g ix iy))) eqn:E; [|discriminate].
    injection Hsome as <-. apply Qle_bool_iff in E.
    exists ix, iy. repeat split; first [lia | assumption].
  - intros (ix & iy & Hix & Hiy & Hd & ->). eexists. split.
    + apply in_map_iff. exists ix. split; [reflexivity|]. apply in_seq. lia.
    + apply list_elem_of_In, list_elem_of_omap. exists iy. split.
      * apply list_elem_of_In, in_seq. lia.
      * apply Qle_bool_iff in Hd. cbv zeta. rewrite Hd. reflexivity.
Qed.

(** A run of hotspot detection on a non-empty point set, step by step. *)
Lemma hotspot_run (p : point) (rest : list point) (ls : option (list string))
    (s d : Q) (r : HotspotResult) :
  compute_hotspot_detection (init (p :: rest) ls) s d = Return r ->
  let x_min := fold_left Qmin (map fst rest) (fst p) in
  let y_min := fold_left Qmin (map snd rest) (snd p) in
  let x_max := fold_left Qmax (map fst rest) (fst p) in
  let y_max := fold_left Qmax (map snd rest) (snd p) in
  let n_x := Qceiling ((x_max - x_min) / s) in
  let n_y := Qceiling ((y_max - y_min) / s) in
  let cells := hs_cells (p :: rest) s x_min y_min n_x n_y in
  exists g m,
    1 <= n_x /\ 1 <= n_y
    /\ has_shape g (Z.to_nat n_x) (Z.to_nat n_y)
    /\ (forall ix iy, (ix < Z.to_nat n_x)%nat -> (iy < Z.to_nat n_y)%nat ->
          cell_count g ix iy = hits cells ix iy)
    /\ amax (map (hs_dens s) (concat g)) = Return m
    /\ hotspots r = sort_desc (hs_found g s d x_min y_min n_x n_y)
    /\ hs_grid_size r = Some s
    /\ total_cells r = Some (length (p :: rest))
    /\ n_hotspots r = Some (length (hotspots r))
    /\ max_density r = Some m.
Proof.
  intros Hr x_min y_min x_max y_max n_x n_y cells.
  unfold compute_hotspot_detection in Hr. cbn [centroids init] in Hr.
  fold x_min y_min x_max y_max in Hr. unfold np_cells in Hr.
  destruct (Qeq_bool s 0).
  { destruct (Qeq_bool (x_max - x_min) 0); discriminate. }
  cbn [Py.bind] in Hr. unfold ceil_int in Hr. fold n_x n_y in Hr.
  change (map _ (p :: rest)) with cells in Hr.
  destruct (zeros n_x n_y) as [z|] eqn:Ez; [|discriminate]. cbn [Py.bind] in Hr.
  destruct (add_at z cells) as [g|] eqn:Eg; [|discriminate]. cbn [Py.bind] in Hr.
  destruct (amax _) as [m|] eqn:Em in Hr; [|discriminate]. cbn [Py.bind] in Hr.
  injection Hr as <-. cbn [hotspots hs_grid_size total_cells n_hotspots max_density].
  destruct (add_at_returns_cells _ _ _ _ _ _ Ez Eg) as [Hnx Hny].
  pose proof (zeros_inv _ _ _ Ez) as (Hnx0 & Hny0 & _).
  destruct (zeros_shape n_x n_y Hnx0 Hny0) as (z' & Ez' & Hz & Hz0).
  rewrite Ez in Ez'. injection Ez' as <-.
  assert (Hin : Forall (fun c => 0 <= fst c < Z.of_nat (Z.to_nat n_x)
                                 /\ 0 <= snd c < Z.of_nat (Z.to_nat n_y)) cells).
  { unfold cells, hs_cells. apply Forall_map, Forall_forall. intros q _.
    rewrite !Z2Nat.id by lia. cbn [fst snd]. split; apply clip_range; assumption. }
  destruct (add_at_counts cells z _ _ Hz Hin) as (g' & Eg' & Hg & Hent).
  rewrite Eg in Eg'. injection Eg' as <-.
  exists g, m. split; [assumption|]. split; [assumption|]. split; [assumption|].
  split.
  { intros ix iy Hix Hiy. unfold cell_count.
    pose proof (Hent ix iy 0 (entry_zeros z _ _ ix iy Hz Hz0 Hix Hiy)) as He.
    unfold entry in He. rewrite He. simpl. lia. }
  split; [exact Em|]. repeat split; reflexivity.
Qed.



(** X15.  A returned hotspot list is in descending order of density, no
    listed density is below the threshold or above max_density,
    n_hotspots is the length of the list, total_cells the number of
    points and grid_size the cell size. *)
Theorem hotspots_sorted_by_density (cs : list point) (ls : option (list string))
    (s d : Q) (r : HotspotResult) :
  cs <> [] ->
  compute_hotspot_detection (init cs ls) s d = Return r ->
  StronglySorted desc (hotspots r)
  /\ n_hotspots r = Some (length (hotspots r))
  /\ total_cells r = Some (length cs)
  /\ hs_grid_size r = Some s
  /\ exists m, max_density r = Some m
       /\ forall h, In h (hotspots r) -> (d <= hs_density h)%Q /\ (hs_density h <= m)%Q.
Proof.
  intros Hne Hr. destruct cs as [|p rest]; [congruence|].
  destruct (hotspot_run p rest ls s d r Hr)
    as (g & m & Hnx & Hny & Hg & Hcount & Hm & Hhs & Hsize & Htot & Hn & Hmax).
  split; [rewrite Hhs; apply sort_desc_sorted|].
  split; [assumption|]. split; [assumption|]. split; [assumption|].
  exists m. split; [assumption|].
  intros h Hh. rewrite Hhs in Hh. apply sort_desc_in, hs_found_in in Hh.
  destruct Hh as (ix & iy & Hix & Hiy & Hd & ->). cbn [hs_record hs_density].
  split; [assumption|].
  apply amax_spec in Hm as [_ Hle]. apply Hle, in_map.
  unfold cell_count. destruct Hg as [Hlen Hrows].
  destruct (g !! ix) as [row|] eqn:Hrow.
  2:{ apply lookup_ge_None in Hrow. lia. }
  simpl. rewrite Forall_forall in Hrows.
  pose proof (Hrows row (list_elem_of_lookup_2 _ _ _ Hrow)) as Hr'.
  destruct (row !! iy) as [v|] eqn:Hv.
  2:{ apply lookup_ge_None in Hv. lia. }
  simpl. apply in_concat. exists row. split.
  - apply list_elem_of_In. eapply list_elem_of_lookup_2, Hrow.
  - apply list_elem_of_In. eapply list_elem_of_lookup_2, Hv.
Qed.

Lemma hotspots_sorted_by_density_witness :
  exists r,
    compute_hotspot_detection (init [(0, 0); (1, 1); (0, 1); (1, 0)]%Q None) 10 1
    = Return r
    /\ total_cells r = Some 4%nat.
Proof.
  eexists. split; [reflexivity|].
  apply (hotspots_sorted_by_density [(0, 0); (1, 1); (0, 1); (1, 0)]%Q None 10 1 _
           ltac:(discriminate) eq_refl).
Defined.

End Hotspots.

(** ** When hotspot detection returns *)

Section HotspotDomain.

Import Stats.

Lemma add_at_raises_index (cells : list (Z * Z)) :
  forall (g : list (list Z)) (e : exn), add_at g cells = Raise e -> e = IndexError.
Proof.
  induction cells as [|c cells IH]; intros g e; cbn [add_at]; [discriminate|].
  destruct (add_at1 g c) as [g1|e1] eqn:E1; cbn [Py.bind].
  - apply IH.
  - intros [= <-]. unfold add_at1, norm_index in E1.
    repeat match type of E1 with
           | context [if ?b then _ else _] => destruct b; cbn [Py.bind] in E1
           | context [match ?o with Some _ => _ | None => _ end] =>
               destruct o; cbn [Py.bind] in E1
           end; congruence.
Qed.

Lemma hotspot_outcome (p : point) (rest : list point) (ls : option (list string))
    (s d : Q) :
  (0 < s)%Q ->
  returns (compute_hotspot_detection (init (p :: rest) ls) s d)
  \/ compute_hotspot_detection (init (p :: rest) ls) s d = Raise IndexError.
Proof.
  intros Hs. unfold compute_hotspot_detection. cbn [centroids init].
  set (x_min := fold_left Qmin (map fst rest) (fst p)).
  set (y_min := fold_left Qmin (map snd rest) (snd p)).
  set (x_max := fold_left Qmax (map fst rest) (fst p)).
  set (y_max := fold_left Qmax (map snd rest) (snd p)).
  unfold np_cells. destruct (Qeq_bool s 0) eqn:E0.
  { apply Qeq_bool_iff in E0. rewrite E0 in Hs. now apply Qlt_irrefl in Hs. }
  cbn [Py.bind]. unfold ceil_int.
  set (n_x := Qceiling ((x_max - x_min) / s)). set (n_y := Qceiling ((y_max - y_min) / s)).
  assert (Hx : (x_min <= x_max)%Q).
  { destruct (fold_Qmin_is_min (map fst rest) (fst p)) as [_ Hl].
    destruct (fold_Qmax_is_max (map fst rest) (fst p)) as [Hin _].
    apply Hl, Hin. }
  assert (Hy : (y_min <= y_max)%Q).
  { destruct (fold_Qmin_is_min (map snd rest) (snd p)) as [_ Hl].
    destruct (fold_Qmax_is_max (map snd rest) (snd p)) as [Hin _].
    apply Hl, Hin. }
  destruct (zeros_shape n_x n_y) as (z & Ez & Hz & _);
    [now apply cells_nonneg|now apply cells_nonneg|].
  rewrite Ez. cbn [Py.bind].
  match goal with |- context [add_at z ?c] => destruct (add_at z c) as [g|e] eqn:Eg end.
  - cbn [Py.bind]. left.
    assert (Hdims : 1 <= n_x /\ 1 <= n_y).
    { change (map ?f (p :: rest)) with (f p :: map f rest) in Eg.
      exact (add_at_returns_cells _ _ _ _ _ _ Ez Eg). }
    destruct Hdims as [Hnx Hny].
    assert (Hg : has_shape g (Z.to_nat n_x) (Z.to_nat n_y)).
    { match type of Eg with add_at z ?cl = _ =>
        assert (Hin : Forall (fun ij => 0 <= fst ij < Z.of_nat (Z.to_nat n_x)
                                        /\ 0 <= snd ij < Z.of_nat (Z.to_nat n_y)) cl)
      end.
      { apply Forall_map, Forall_forall. intros q _.
        rewrite !Z2Nat.id by lia. cbn [fst snd]. split; apply clip_range; assumption. }
      destruct (add_at_counts _ z _ _ Hz Hin) as (g' & Eg' & Hg' & _).
      rewrite Eg in Eg'. injection Eg' as <-. exact Hg'. }
    destruct Hg as [Hlen Hrows].
    destruct g as [|row g]; [simpl in Hlen; lia|].
    apply Forall_cons in Hrows as [Hrow _].
    destruct row as [|v row]; [simpl in Hrow; lia|].
    cbn [concat app map amax Py.bind]. eexists. reflexivity.
  - cbn [Py.bind]. right. f_equal. eapply add_at_raises_index, Eg.
Qed.

(** X16.  For a positive cell size, hotspot detection on a non-empty point
    set whose points all have the same x, or all the same y, returns no
    result: it raises.  A single point, or points on one vertical or
    horizontal line, therefore never get a hotspot list. *)
Theorem hotspot_degenerate_raises (cs : list point) (ls : option (list string))
    (s d : Q) :
  cs <> [] -> (0 < s)%Q ->
  (forall p q, In p cs -> In q cs -> (fst p == fst q)%Q)
  \/ (forall p q, In p cs -> In q cs -> (snd p == snd q)%Q) ->
  raises (compute_hotspot_detection (init cs ls) s d).
Proof.
  intros Hne Hs Hflat. destruct cs as [|p0 rest]; [congruence|].
  destruct (hotspot_outcome p0 rest ls s d Hs) as [[r Hr]|Hraise];
    [|eexists; exact Hraise].
  exfalso.
  destruct (fold_Qmin_is_min (map fst rest) (fst p0)) as [Hxmin_in _].
  destruct (fold_Qmax_is_max (map fst rest) (fst p0)) as [Hxmax_in _].
  destruct (fold_Qmin_is_min (map snd rest) (snd p0)) as [Hymin_in _].
  destruct (fold_Qmax_is_max (map snd rest) (snd p0)) as [Hymax_in _].
  change (fst p0 :: map fst rest) with (map fst (p0 :: rest)) in *.
  change (snd p0 :: map snd rest) with (map snd (p0 :: rest)) in *.
  destruct (hotspot_run p0 rest ls s d r Hr) as (g & m & Hnx & Hny & _).
  apply (cells_positive_inv _ _ s Hs) in Hnx. apply (cells_positive_inv _ _ s Hs) in Hny.
  apply in_map_iff in Hxmin_in as (p & Hp & Hpin).
  apply in_map_iff in Hxmax_in as (q & Hq & Hqin).
  apply in_map_iff in Hymin_in as (p' & Hp' & Hpin').
  apply in_map_iff in Hymax_in as (q' & Hq' & Hqin').
  rewrite <- Hp, <- Hq in Hnx. rewrite <- Hp', <- Hq' in Hny.
  destruct Hflat as [Hx|Hy].
  - specialize (Hx p q Hpin Hqin). lra.
  - specialize (Hy p' q' Hpin' Hqin'). lra.
Qed.

Lemma hotspot_degenerate_raises_witness :
  raises (compute_hotspot_detection (init [(3, 0); (3, 7); (3, 20)]%Q None) 10 1).
Proof.
  apply (hotspot_degenerate_raises [(3, 0); (3, 7); (3, 20)]%Q None 10 1
           ltac:(discriminate) eq_refl).
  left. intros p q Hp Hq. simpl in Hp, Hq.
  destruct Hp as [<-|[<-|[<-|[]]]]; destruct Hq as [<-|[<-|[<-|[]]]]; reflexivity.
Defined.

End HotspotDomain.

(** ** The summary *)

Section SummaryStatistics.

Import Stats Summary.

Lemma qmean_times_length (l : list Q) :
  l <> [] ->
  (qmean l * inject_Z (Z.of_nat (length l)) == fold_right Qplus 0 l)%Q.
Proof.
  intros Hne. unfold qmean. field. intros E.
  assert (H : (inject_Z (Z.of_nat (length l)) == inject_Z 0)%Q) by exact E.
  rewrite inject_Z_injective in H. destruct l; [congruence|discriminate].
Qed.

Lemma label_distribution_total (ls : list string) :
  fold_right Nat.add 0%nat (map snd (label_distribution_of ls)) = length ls.
Proof.
  unfold label_distribution_of. rewrite map_map. cbn [snd].
  rewrite (count_swap String.eqb (unique ls) ls).
  apply sum_of_ones. intros x Hx.
  apply once_in_unique; [apply unique_NoDup|now apply in_unique].
Qed.

(** X17.  [compute_summary_statistics] answers the error value on an
    empty point set.  On a non-empty one with a non-zero area it returns
    a summary whose total_count is N, whose extent is the coordinate-wise
    minimum and maximum, whose centroid times N is the sum of the
    coordinates, and whose nearest-neighbor entry is the nearest-neighbor
    result itself (the error value when N = 1).  label_distribution is present exactly when
    labels were given; it lists the distinct labels in ascending order,
    each with its number of occurrences (at least 1), and the counts add
    up to the length of the label array. *)
Theorem summary_statistics (cs : list point) (ls : option (list string)) (area : Q) :
  (cs = [] -> compute_summary_statistics (init cs ls) area = Return NoDataPoints)
  /\ (cs <> [] -> ~ (area == 0)%Q ->
      exists sm, compute_summary_statistics (init cs ls) area = Return (SummaryOk sm)
        /\ total_count sm = length cs
        /\ is_min (extent_x_min sm) (map fst cs) /\ is_max (extent_x_max sm) (map fst cs)
        /\ is_min (extent_y_min sm) (map snd cs) /\ is_max (extent_y_max sm) (map snd cs)
        /\ (centroid_x sm * inject_Z (Z.of_nat (length cs))
            == fold_right Qplus 0 (map fst cs))%Q
        /\ (centroid_y sm * inject_Z (Z.of_nat (length cs))
            == fold_right Qplus 0 (map snd cs))%Q
        /\ nearest_neighbor sm = compute_nearest_neighbor_distribution (init cs ls)
        /\ (length cs = 1%nat -> nearest_neighbor sm = NNError)
        /\ match ls with
           | None => label_distribution sm = None
           | Some labels =>
               exists dist, label_distribution sm = Some dist
                 /\ map fst dist = unique labels
                 /\ (forall l n, In (l, n) dist ->
                       n = length (List.filter (String.eqb l) labels) /\ (1 <= n)%nat)
                 /\ fold_right Nat.add 0%nat (map snd dist) = length labels
           end).
Proof.
  split; [intros ->; reflexivity|].
  intros Hne Ha. destruct cs as [|p rest]; [congruence|].
  unfold compute_summary_statistics. cbn [centroids init labels].
  rewrite (area_nonzero _ Ha). eexists. split; [reflexivity|].
  cbn [total_count extent_x_min extent_x_max extent_y_min extent_y_max centroid_x
       centroid_y nearest_neighbor label_distribution].
  pose proof (fold_Qmin_is_min (map fst rest) (fst p)) as Hxmin.
  pose proof (fold_Qmax_is_max (map fst rest) (fst p)) as Hxmax.
  pose proof (fold_Qmin_is_min (map snd rest) (snd p)) as Hymin.
  pose proof (fold_Qmax_is_max (map snd rest) (snd p)) as Hymax.
  change (fst p :: map fst rest) with (map fst (p :: rest)) in *.
  change (snd p :: map snd rest) with (map snd (p :: rest)) in *.
  split; [reflexivity|]. do 4 (split; [assumption|]).
  pose proof (qmean_times_length (map fst (p :: rest)) ltac:(discriminate)) as Hcx.
  pose proof (qmean_times_length (map snd (p :: rest)) ltac:(discriminate)) as Hcy.
  rewrite length_map in Hcx, Hcy.
  split; [exact Hcx|]. split; [exact Hcy|].
  split; [reflexivity|]. split.
  - intros Hone. destruct rest; [reflexivity|discriminate].
  - destruct ls as [labels|]; [|reflexivity]. cbn [option_map].
    eexists. split; [reflexivity|]. split.
    + unfold label_distribution_of. rewrite map_map. apply map_id.
    + split; [|apply label_distribution_total].
      intros l n Hin. unfold label_distribution_of in Hin.
      apply in_map_iff in Hin as (l' & [= -> <-] & Hl). split; [reflexivity|].
      apply (proj1 (in_unique _ _)) in Hl.
      destruct (List.filter (String.eqb l) labels) as [|y ys] eqn:Ef; [|simpl; lia].
      exfalso. assert (Hin : In l (List.filter (String.eqb l) labels)).
      { apply filter_In. split; [assumption|apply String.eqb_refl]. }
      rewrite Ef in Hin. destruct Hin.
Qed.

Lemma summary_statistics_witness :
  exists sm,
    compute_summary_statistics (init [(0, 0); (4, 2)]%Q (Some ["b"; "a"]%string)) 100
    = Return (SummaryOk sm)
    /\ total_count sm = 2%nat.
Proof.
  destruct (proj2 (summary_statistics [(0, 0); (4, 2)]%Q (Some ["b"; "a"]%string) 100))
    as (sm & Hs & Ht & _); [discriminate|discriminate|].
  exists sm. split; [exact Hs|exact Ht].
Defined.

End SummaryStatistics.
